(** * dom-to-svg: stacking contexts and stacking layers

    A shallow embedding of [src/stacking.ts]: the predicate that decides
    whether a node establishes a CSS stacking context, the classifier that
    picks one of the seven stacking layers for an element, and the code that
    creates the layer containers in the output SVG tree and sorts the two
    z-index ordered layers.

    The input document is read only and is modelled by records; the output
    SVG tree is mutated in place and is modelled by a store of elements
    addressed by node identities. *)

From Stdlib Require Import ZArith String Ascii List Bool Lia Permutation.
From stdpp Require Import base option list gmap strings sorting.

(** ** Thrown errors *)

Inductive Error : Type :=
  | JsError (message : string)
  | TypeError (message : string).

(** A computation that returns a value or throws. *)
Inductive Result (A : Type) : Type :=
  | Ok (a : A)
  | Throw (e : Error).
Arguments Ok {A} a.
Arguments Throw {A} e.

#[global] Instance Result_ret : MRet Result := @Ok.
#[global] Instance Result_bind : MBind Result := fun A B f m =>
  match m with
  | Ok a => f a
  | Throw e => Throw e
  end.

(** [b && m] and [b || m] of JavaScript, where only the right operand can
    throw and is evaluated only when the left one does not decide. *)
Definition andThen (b : bool) (m : Result bool) : Result bool :=
  if b then m else Ok false.
Definition orElse (b : bool) (m : Result bool) : Result bool :=
  if b then Ok true else m.

(** ** The JavaScript built-ins used by the module *)

Module JS.

Local Open Scope Z_scope.

(** White space removed by [trim] and skipped by [parseInt] and
    [parseFloat], restricted to code units below 256. *)
Definition isWhiteSpace (c : ascii) : bool :=
  match nat_of_ascii c with
  | 9%nat | 10%nat | 11%nat | 12%nat | 13%nat | 32%nat | 160%nat => true
  | _ => false
  end.

Fixpoint trimStart (s : string) : string :=
  match s with
  | String c s' => if isWhiteSpace c then trimStart s' else s
  | EmptyString => EmptyString
  end.

Fixpoint trimEnd (s : string) : string :=
  match s with
  | EmptyString => EmptyString
  | String c s' =>
      match trimEnd s' with
      | EmptyString => if isWhiteSpace c then EmptyString else String c EmptyString
      | t => String c t
      end
  end.

(** [String.prototype.trim] *)
Definition trim (s : string) : string := trimEnd (trimStart s).

(** [String.prototype.split] with a separator of one character: the
    result is never empty, and the empty string splits into one empty
    piece. *)
Fixpoint split (sep : ascii) (s : string) : list string :=
  match s with
  | EmptyString => [EmptyString]
  | String c s' =>
      if Ascii.eqb c sep then EmptyString :: split sep s'
      else match split sep s' with
           | p :: ps => String c p :: ps
           | [] => [String c EmptyString]
           end
  end.

(** Truthiness of a string: every string but the empty one. *)
Definition truthy (s : string) : bool :=
  match s with
  | EmptyString => false
  | String _ _ => true
  end.

Definition digitValue (c : ascii) : option Z :=
  let n := nat_of_ascii c in
  if ((48 <=? n)%nat && (n <=? 57)%nat)%bool then Some (Z.of_nat (n - 48)) else None.

(** The longest prefix of decimal digits of a string, and what follows. *)
Fixpoint takeDigits (s : string) : list Z * string :=
  match s with
  | EmptyString => ([], EmptyString)
  | String c s' =>
      match digitValue c with
      | Some d => let '(ds, r) := takeDigits s' in (d :: ds, r)
      | None => ([], s)
      end
  end.

Definition digitsValue (ds : list Z) : Z :=
  fold_left (fun acc d => 10 * acc + d) ds 0.

(** An optional sign in front of a numeric literal. *)
Definition takeSign (s : string) : bool * string :=
  match s with
  | String "-" r => (true, r)
  | String "+" r => (false, r)
  | _ => (false, s)
  end.

(** The Number values that arise from integers: not-a-number, the two
    infinities, and the finite doubles that are integers.  Negative zero is
    identified with zero, which no comparison or subtraction below tells
    apart. *)
Inductive Number : Type :=
  | NaN
  | Infinity (negative : bool)
  | Finite (z : Z).

(** The double nearest to an integer, ties to even: integers below 2^53
    in magnitude are exact, larger ones keep 53 significant bits, and
    what rounds to 2^1024 or more overflows. *)
Definition ofInteger (z : Z) : Number :=
  let a := Z.abs z in
  if a <? 2 ^ 53 then Finite z
  else
    let k := Z.log2 a - 52 in
    let q := Z.shiftr a k in
    let r := Z.land a (Z.ones k) in
    let half := Z.shiftl 1 (k - 1) in
    let q' := if (half <? r) || ((r =? half) && Z.odd q) then q + 1 else q in
    let v := Z.shiftl q' k in
    if 2 ^ 1024 <=? v then Infinity (z <? 0)
    else Finite (Z.sgn z * v).

(** [parseInt(s, 10)]: leading white space is skipped, a sign is read, and
    the longest prefix of decimal digits is the value; without a digit the
    result is not a number. *)
Definition parseInt (s : string) : Number :=
  let '(negative, r) := takeSign (trimStart s) in
  match takeDigits r with
  | ([], _) => NaN
  | (ds, _) => ofInteger (if negative then - digitsValue ds else digitsValue ds)
  end.

(** Subtraction of two such Numbers. *)
Definition sub (a b : Number) : Number :=
  match a, b with
  | NaN, _ | _, NaN => NaN
  | Infinity s, Infinity t => if Bool.eqb s t then NaN else Infinity s
  | Infinity s, Finite _ => Infinity s
  | Finite _, Infinity t => Infinity (negb t)
  | Finite x, Finite y => ofInteger (x - y)
  end.

(** [x < 0], [x > 0] and [x === 0]; all false on not-a-number. *)
Definition ltZero (x : Number) : bool :=
  match x with
  | NaN => false
  | Infinity s => s
  | Finite z => z <? 0
  end.
Definition gtZero (x : Number) : bool :=
  match x with
  | NaN => false
  | Infinity s => negb s
  | Finite z => 0 <? z
  end.
Definition eqZero (x : Number) : bool :=
  match x with
  | Finite z => z =? 0
  | _ => false
  end.

Definition isNaN (x : Number) : bool :=
  match x with
  | NaN => true
  | _ => false
  end.

#[global] Instance Number_eq_dec : EqDecision Number.
Proof. solve_decision. Defined.

(** What [parseFloat] reads, before it is rounded to a double: the exact
    decimal [mantissa * 10 ^ exponent] with its sign. *)
Inductive Decimal : Type :=
  | DNaN
  | DInfinity (negative : bool)
  | DValue (negative : bool) (mantissa : Z) (exponent : Z).

Definition startsWith (p s : string) : bool := String.prefix p s.

(** The exponent part [e], [e+] or [e-] followed by digits; it is read
    only when at least one digit follows. *)
Definition takeExponent (s : string) : Z :=
  match s with
  | String c r =>
      if Ascii.eqb c "e" || Ascii.eqb c "E" then
        let '(negative, r') := takeSign r in
        match takeDigits r' with
        | ([], _) => 0
        | (ds, _) => if negative then - digitsValue ds else digitsValue ds
        end
      else 0
  | EmptyString => 0
  end.

(** [parseFloat(s)]: the longest prefix that is a decimal literal. *)
Definition parseFloat (s : string) : Decimal :=
  let '(negative, r) := takeSign (trimStart s) in
  if startsWith "Infinity" r then DInfinity negative
  else
    let '(ints, r1) := takeDigits r in
    let '(fracs, r2) :=
      match r1 with
      | String "." r1' =>
          match takeDigits r1' with
          | ([], _) => ([], match ints with [] => r1 | _ => r1' end)
          | (fs, r2) => (fs, r2)
          end
      | _ => ([], r1)
      end in
    match ints, fracs with
    | [], [] => DNaN
    | _, _ =>
        DValue negative (digitsValue (ints ++ fracs))
               (takeExponent r2 - Z.of_nat (length fracs))
    end.

(** [x === 1] for the double nearest to a decimal: the decimals that round
    to 1 are those from [1 - 2^-54] to [1 + 2^-53], both ends included
    since the significand of 1 is even. *)
Definition isOne (x : Decimal) : bool :=
  match x with
  | DValue false m e =>
      if 0 <=? e then m * 10 ^ e =? 1
      else
        let d := 10 ^ (- e) in
        ((2 ^ 54 - 1) * d <=? m * 2 ^ 54) && (m * 2 ^ 53 <=? (2 ^ 53 + 1) * d)
  | _ => false
  end.

End JS.

(** ** The styled input tree *)

(** The computed style values the module reads.  Every field is a string,
    as the [CSSStyleDeclaration] interface and its extension at the head of
    [stacking.ts] declare them. *)
Module Style.
Record CSSStyleDeclaration : Type := mk {
  position : string;
  zIndex : string;
  display : string;
  displayOutside : string;
  displayInside : string;
  float : string;
  opacity : string;
  mixBlendMode : string;
  transform : string;
  filter : string;
  perspective : string;
  clipPath : string;
  mask : string;
  maskImage : string;
  maskBorder : string;
  isolation : string;
  webkitOverflowScrolling : string;
  contain : string;
  willChange : string
}.
End Style.
Abbreviation CSSStyleDeclaration := Style.CSSStyleDeclaration.

Definition NodeId := nat.

(** The kinds of node of the styled tree. *)
Inductive NodeKind : Type :=
  | ElementNode
  | TextNode
  | OtherNode.

(** A window resolves the computed style of an element, given by its
    identity. *)
Record Window : Type := {
  getComputedStyle : NodeId -> CSSStyleDeclaration
}.

(** A document is rendered in a window, or in none. *)
Record Document : Type := {
  defaultView : option Window
}.

(** A node of the input tree: [ownerDocument] is absent for a document node
    itself, and [parentElement] for a node whose parent is not an element. *)
#[warnings="-register-all"]
Inductive Node : Type := mkNode {
  nodeId : NodeId;
  nodeKind : NodeKind;
  ownerDocument : option Document;
  parentElement : option Node
}.

(** The helpers that [stacking.ts] imports from [./common]. *)
Module Common.

(** Modelled from the spec: [isElement] of [./common], which is not among
    the sources; only nodes of kind element participate in stacking. *)
Definition isElement (node : Node) : bool :=
  match nodeKind node with
  | ElementNode => true
  | _ => false
  end.

(** Modelled from the spec: [isPositioned] of [./common], which is not
    among the sources; true if position is relative, absolute, fixed, or
    sticky. *)
Definition isPositioned (styles : CSSStyleDeclaration) : bool :=
  (Style.position styles =? "relative")%string
  || (Style.position styles =? "absolute")%string
  || (Style.position styles =? "fixed")%string
  || (Style.position styles =? "sticky")%string.

(** Modelled from the spec: [isInFlow] of [./common], which is not among
    the sources; true if the element participates in normal flow: not
    floated, not absolutely or fixed positioned, not the root. *)
Definition isInFlow (element : Node) (styles : CSSStyleDeclaration) : bool :=
  (Style.float styles =? "none")%string
  && negb (Style.position styles =? "absolute")%string
  && negb (Style.position styles =? "fixed")%string
  && match parentElement element with Some _ => true | None => false end.

(** Modelled from the spec: [isInline] of [./common], which is not among
    the sources; true if display-outside resolves to inline-level,
    including inline-table and inline-block. *)
Definition isInline (styles : CSSStyleDeclaration) : bool :=
  (Style.displayOutside styles =? "inline")%string
  || (Style.display styles =? "inline")%string
  || (Style.display styles =? "inline-table")%string
  || (Style.display styles =? "inline-block")%string.

End Common.

(** ** The stacking predicate *)

(** The property names that count for the will-change rule, spelled as the
    source spells them. *)
Definition stackingContextEstablishingProperties : gset string :=
  list_to_set [
    "clipPath";
    "contain";
    "filter";
    "isolation";
    "mask";
    "maskBorder";
    "maskImage";
    "mixBlendMode";
    "opacity";
    "perspective";
    "position";
    "transform";
    "webkitOverflowScrolling";
    "zIndex"
  ].

(** [Array.prototype.some] with a predicate that does not throw. *)
Definition some {A : Type} (p : A -> bool) (l : list A) : bool := existsb p l.

(** The style test of [establishesStackingContext]: the disjunction it
    returns, on the element's styles and those of its parent element, if it
    has one. *)
Definition establishingStyles
    (styles : CSSStyleDeclaration) (parentStyles : option CSSStyleDeclaration) : bool :=
  (((Style.position styles =? "absolute")%string || (Style.position styles =? "relative")%string)
     && negb (Style.zIndex styles =? "auto")%string)
  || (Style.position styles =? "fixed")%string
  || (Style.position styles =? "sticky")%string
  || match parentStyles with
     | Some parentStyles =>
         ((Style.display parentStyles =? "flex")%string
          || (Style.display parentStyles =? "grid")%string)
         && negb (Style.zIndex styles =? "auto")%string
     | None => false
     end
  || negb (JS.isOne (JS.parseFloat (Style.opacity styles)))
  || negb (Style.mixBlendMode styles =? "normal")%string
  || negb (Style.transform styles =? "none")%string
  || negb (Style.filter styles =? "none")%string
  || negb (Style.perspective styles =? "none")%string
  || negb (Style.clipPath styles =? "none")%string
  || negb (Style.mask styles =? "none")%string
  || negb (Style.maskImage styles =? "none")%string
  || negb (Style.maskBorder styles =? "none")%string
  || (Style.isolation styles =? "isolate")%string
  || (Style.webkitOverflowScrolling styles =? "touch")%string
  || (Style.contain styles =? "layout")%string
  || (Style.contain styles =? "paint")%string
  || (Style.contain styles =? "strict")%string
  || (Style.contain styles =? "content")%string
  || (JS.truthy (Style.willChange styles)
      && some (fun property =>
                 bool_decide (JS.trim property ∈ stackingContextEstablishingProperties))
              (JS.split "," (Style.willChange styles))).

(** [node.ownerDocument?.defaultView] *)
Definition ownerView (node : Node) : option Window :=
  ownerDocument node ≫= defaultView.

Definition establishesStackingContext (node : Node) : Result bool :=
  match ownerView node with
  | None => Throw (JsError "Node's ownerDocument has no defaultView")
  | Some view =>
      if negb (Common.isElement node) then Ok false
      else
        let styles := getComputedStyle view (nodeId node) in
        let parentStyles :=
          (fun parent => getComputedStyle view (nodeId parent)) <$> parentElement node in
        Ok (establishingStyles styles parentStyles)
  end.

(** ** The stacking layers *)

(** The keys of [StackingLayers], in declaration order. *)
Inductive LayerName : Type :=
  | rootBackgroundAndBorders
  | childStackingContextsWithNegativeStackLevels
  | inFlowNonInlineNonPositionedDescendants
  | nonPositionedFloats
  | inFlowInlineLevelNonPositionedDescendants
  | childStackingContextsWithStackLevelZeroAndPositionedDescendantsWithStackLevelZero
  | childStackingContextsWithPositiveStackLevels.

#[global] Instance LayerName_eq_dec : EqDecision LayerName.
Proof. solve_decision. Defined.

(** The string each key is. *)
Definition layerNameString (name : LayerName) : string :=
  match name with
  | rootBackgroundAndBorders => "rootBackgroundAndBorders"
  | childStackingContextsWithNegativeStackLevels =>
      "childStackingContextsWithNegativeStackLevels"
  | inFlowNonInlineNonPositionedDescendants => "inFlowNonInlineNonPositionedDescendants"
  | nonPositionedFloats => "nonPositionedFloats"
  | inFlowInlineLevelNonPositionedDescendants =>
      "inFlowInlineLevelNonPositionedDescendants"
  | childStackingContextsWithStackLevelZeroAndPositionedDescendantsWithStackLevelZero =>
      "childStackingContextsWithStackLevelZeroAndPositionedDescendantsWithStackLevelZero"
  | childStackingContextsWithPositiveStackLevels =>
      "childStackingContextsWithPositiveStackLevels"
  end.

(** ** The layer classifier *)

Section Classifier.

(** [isInFlow] and [isInline] of [./common] are not among the sources:
    the classifier is stated for any two such predicates. *)
Variable isInFlow : Node -> CSSStyleDeclaration -> bool.
Variable isInline : CSSStyleDeclaration -> bool.

(** The local [zIndex]: [undefined] for the keyword, and what [parseInt]
    reads otherwise. *)
Definition parsedZIndex (styles : CSSStyleDeclaration) : option JS.Number :=
  if negb (Style.zIndex styles =? "auto")%string
  then Some (JS.parseInt (Style.zIndex styles))
  else None.

Definition determineStackingLayer (element : Node) : Result LayerName :=
  match ownerDocument element with
  | None => Throw (TypeError "Cannot read properties of null (reading 'defaultView')")
  | Some document =>
  match defaultView document with
  | None => Throw (JsError "Element's ownerDocument has no defaultView")
  | Some view =>
    let styles := getComputedStyle view (nodeId element) in
    let zIndex := parsedZIndex styles in
    negative ← andThen (from_option JS.ltZero false zIndex)
                       (establishesStackingContext element);
    if negative : bool then Ok childStackingContextsWithNegativeStackLevels
    else if isInFlow element styles && negb (isInline styles)
            && negb (Common.isPositioned styles)
    then Ok inFlowNonInlineNonPositionedDescendants
    else if negb (Common.isPositioned styles)
            && negb (Style.float styles =? "none")%string
    then Ok nonPositionedFloats
    else if isInFlow element styles && isInline styles
            && negb (Common.isPositioned styles)
    then Ok inFlowInlineLevelNonPositionedDescendants
    else
      zero ← andThen (from_option JS.eqZero false zIndex)
                     (orElse (Common.isPositioned styles)
                             (establishesStackingContext element));
      if zero : bool
      then Ok childStackingContextsWithStackLevelZeroAndPositionedDescendantsWithStackLevelZero
      else
        positive ← andThen (from_option JS.gtZero false zIndex)
                           (establishesStackingContext element);
        if positive : bool then Ok childStackingContextsWithPositiveStackLevels
        else Throw (JsError "Did not find appropiate stacking layer")
  end
  end.

End Classifier.

(** ** [Array.prototype.sort] *)

Section Sort.

Context {A : Type}.

(** The comparison function, which may throw. *)
Variable comparefn : A -> A -> Result JS.Number.

(** [Array.prototype.sort] is stable, and the calls it makes to the
    comparison function are left to the engine: it is modelled by a stable
    insertion sort.  An element goes behind those that the comparison
    function puts before it (a result above zero), and stays in front of the
    first one for which the result is zero, negative or not a number. *)
Fixpoint sortInsert (x : A) (sorted : list A) : Result (list A) :=
  match sorted with
  | [] => Ok [x]
  | y :: ys =>
      v ← comparefn x y;
      if JS.gtZero v then (r ← sortInsert x ys; Ok (y :: r))
      else Ok (x :: y :: ys)
  end.

Fixpoint sort (l : list A) : Result (list A) :=
  match l with
  | [] => Ok []
  | x :: xs => sorted ← sort xs; sortInsert x sorted
  end.

End Sort.

(** ** The output SVG tree *)

(** An element of the output tree: its [dataset], the identities of its
    child elements in order, and that of its parent. *)
Record SVGElement : Type := mkSVGElement {
  namespaceURI : string;
  localName : string;
  dataset : gmap string string;
  children : list NodeId;
  parentNode : option NodeId
}.

(** The output tree: the elements that exist, by identity. *)
Abbreviation Dom := (gmap NodeId SVGElement).

Definition setDataset (key value : string) (e : SVGElement) : SVGElement :=
  mkSVGElement (namespaceURI e) (localName e) (<[key := value]> (dataset e))
               (children e) (parentNode e).

Definition setChildren (cs : list NodeId) (e : SVGElement) : SVGElement :=
  mkSVGElement (namespaceURI e) (localName e) (dataset e) cs (parentNode e).

Definition setParentNode (p : option NodeId) (e : SVGElement) : SVGElement :=
  mkSVGElement (namespaceURI e) (localName e) (dataset e) (children e) p.

(** [parent.children], as an array *)
Definition childrenOf (tree : Dom) (parent : NodeId) : list NodeId :=
  from_option children [] (tree !! parent).

(** [element.dataset[key]], [None] for [undefined] *)
Definition datasetOf (tree : Dom) (element : NodeId) (key : string) : option string :=
  tree !! element ≫= fun e => dataset e !! key.

(** [document.createElementNS]: a new element, in no tree yet. *)
Definition createElementNS (namespace name : string) (tree : Dom) : NodeId * Dom :=
  let id := fresh (dom tree : gset NodeId) in
  (id, <[id := mkSVGElement namespace name ∅ [] None]> tree).

(** Removal of a node from its parent, the first half of an insertion. *)
Definition removeFromParent (child : NodeId) (tree : Dom) : Dom :=
  match tree !! child ≫= parentNode with
  | Some old =>
      alter (fun e => setChildren (filter (fun c => c ≠ child) (children e)) e) old
            (alter (setParentNode None) child tree)
  | None => tree
  end.

(** [parent.append(child)]: the child leaves the parent it has, if any, and
    becomes the last child of [parent].  The hierarchy check of the DOM
    cannot fail in this module, which appends an element it has just created
    or a child of [parent] itself. *)
Definition append (parent child : NodeId) (tree : Dom) : Dom :=
  alter (fun e => setChildren (children e ++ [child]) e) parent
        (alter (setParentNode (Some parent)) child (removeFromParent child tree)).

(** The seven layer containers of a stacking context. *)
Record StackingLayers : Type := mkStackingLayers {
  layer_rootBackgroundAndBorders : NodeId;
  layer_childStackingContextsWithNegativeStackLevels : NodeId;
  layer_inFlowNonInlineNonPositionedDescendants : NodeId;
  layer_nonPositionedFloats : NodeId;
  layer_inFlowInlineLevelNonPositionedDescendants : NodeId;
  layer_childStackingContextsWithStackLevelZeroAndPositionedDescendantsWithStackLevelZero : NodeId;
  layer_childStackingContextsWithPositiveStackLevels : NodeId
}.

Section Layers.

(** [svgNamespace] of [./common], which is not among the sources. *)
Variable svgNamespace : string.

Definition createStackingLayer (parent : NodeId) (layerName : LayerName) (tree : Dom)
    : NodeId * Dom :=
  let '(layer, tree) := createElementNS svgNamespace "g" tree in
  let tree := alter (setDataset "stackingLayer" (layerNameString layerName)) layer tree in
  let tree := append parent layer tree in
  (layer, tree).

(** The properties of the object literal are evaluated in source order. *)
Definition createStackingLayers (container : NodeId) (tree : Dom) : StackingLayers * Dom :=
  let tree := alter (setDataset "stackingContext" "true") container tree in
  let '(l1, tree) := createStackingLayer container rootBackgroundAndBorders tree in
  let '(l2, tree) :=
    createStackingLayer container childStackingContextsWithNegativeStackLevels tree in
  let '(l3, tree) :=
    createStackingLayer container inFlowNonInlineNonPositionedDescendants tree in
  let '(l4, tree) := createStackingLayer container nonPositionedFloats tree in
  let '(l5, tree) :=
    createStackingLayer container inFlowInlineLevelNonPositionedDescendants tree in
  let '(l6, tree) :=
    createStackingLayer container
      childStackingContextsWithStackLevelZeroAndPositionedDescendantsWithStackLevelZero
      tree in
  let '(l7, tree) :=
    createStackingLayer container childStackingContextsWithPositiveStackLevels tree in
  (mkStackingLayers l1 l2 l3 l4 l5 l6 l7, tree).

End Layers.

(** The comparison function of [sortChildrenByZIndex]: it throws when one
    of the two [data-z-index] attributes is missing or empty. *)
Definition compareZIndex (tree : Dom) (a b : NodeId) : Result JS.Number :=
  let zIndexA := datasetOf tree a "zIndex" in
  let zIndexB := datasetOf tree b "zIndex" in
  match zIndexA, zIndexB with
  | Some zIndexA, Some zIndexB =>
      if negb (JS.truthy zIndexA) || negb (JS.truthy zIndexB)
      then Throw (JsError "Expected node to have data-z-index attribute")
      else Ok (JS.sub (JS.parseInt zIndexA) (JS.parseInt zIndexB))
  | _, _ => Throw (JsError "Expected node to have data-z-index attribute")
  end.

Definition sortChildrenByZIndex (parent : NodeId) (tree : Dom) : Result Dom :=
  sorted ← sort (compareZIndex tree) (childrenOf tree parent);
  Ok (foldl (fun tree child => append parent child tree) tree sorted).

Definition sortStackingLayerChildren (stackingLayers : StackingLayers) (tree : Dom)
    : Result Dom :=
  tree ← sortChildrenByZIndex
          (layer_childStackingContextsWithNegativeStackLevels stackingLayers) tree;
  sortChildrenByZIndex (layer_childStackingContextsWithPositiveStackLevels stackingLayers) tree.

(** The seven keys and the seven containers, in declaration order. *)
Definition layerNames : list LayerName :=
  [ rootBackgroundAndBorders;
    childStackingContextsWithNegativeStackLevels;
    inFlowNonInlineNonPositionedDescendants;
    nonPositionedFloats;
    inFlowInlineLevelNonPositionedDescendants;
    childStackingContextsWithStackLevelZeroAndPositionedDescendantsWithStackLevelZero;
    childStackingContextsWithPositiveStackLevels ].

Definition layerIds (layers : StackingLayers) : list NodeId :=
  [ layer_rootBackgroundAndBorders layers;
    layer_childStackingContextsWithNegativeStackLevels layers;
    layer_inFlowNonInlineNonPositionedDescendants layers;
    layer_nonPositionedFloats layers;
    layer_inFlowInlineLevelNonPositionedDescendants layers;
    layer_childStackingContextsWithStackLevelZeroAndPositionedDescendantsWithStackLevelZero
      layers;
    layer_childStackingContextsWithPositiveStackLevels layers ].

(** A layer container as [createStackingLayer] leaves it: a [g] element
    without children, tagged with the name of its layer, under the
    container. *)
Definition emptyLayer (namespace : string) (container : NodeId) (name : LayerName)
    : SVGElement :=
  mkSVGElement namespace "g" {[ "stackingLayer" := layerNameString name ]} []
               (Some container).

(** What holds of the tree after some of the seven calls: the container
    has the new layers as its last children, each layer is an empty tagged
    [g] element that was not in the tree before, and nothing else has
    changed. *)
Record LayersCreated (svgNamespace : string) (tree0 : Dom) (container : NodeId) (ce : SVGElement)
    (ids : list NodeId) (names : list LayerName) (tree : Dom) : Prop := {
  created_container :
    tree !! container
      = Some (setChildren (children ce ++ ids) (setDataset "stackingContext" "true" ce));
  created_layers :
    Forall2 (fun id name => tree !! id = Some (emptyLayer svgNamespace container name))
            ids names;
  created_fresh : Forall (fun id => tree0 !! id = None) ids;
  created_NoDup : NoDup ids;
  created_others : ∀ i, i ≠ container → i ∉ ids → tree !! i = tree0 !! i
}.

(** ** What the sort reads of the tree *)

(** [c] is the last child after it is appended to the parent it has. *)
Definition moveToEnd (c : NodeId) (cs : list NodeId) : list NodeId :=
  filter (fun x => x ≠ c) cs ++ [c].

(** The invariant of a tree around one parent: its children are pairwise
    distinct nodes other than itself, and each of them has it as parent. *)
Definition childrenAttached (tree : Dom) (parent : NodeId) : bool :=
  bool_decide (NoDup (childrenOf tree parent))
  && bool_decide (parent ∉ childrenOf tree parent)
  && forallb (fun c => bool_decide (tree !! c ≫= parentNode = Some parent))
             (childrenOf tree parent).

(** The element has a [data-z-index] attribute that is not empty. *)
Definition hasZIndexTag (tree : Dom) (c : NodeId) : bool :=
  from_option JS.truthy false (datasetOf tree c "zIndex").

(** The number the sort reads from the attribute. *)
Definition zIndexKey (tree : Dom) (c : NodeId) : JS.Number :=
  from_option JS.parseInt JS.NaN (datasetOf tree c "zIndex").

(** The attribute is there and parses to an integer. *)
Definition hasIntegerZIndexTag (tree : Dom) (c : NodeId) : bool :=
  hasZIndexTag tree c && negb (JS.isNaN (zIndexKey tree c)).

(** [a] comes before [b] in a list. *)
Definition precedes {A : Type} (a b : A) (l : list A) : Prop :=
  [a; b] `sublist_of` l.

(** ** Sample inputs *)

(** The initial values of the style properties, with the given position,
    z-index, display, float and will-change. *)
Definition initialStyles (position zIndex display float willChange : string)
    : CSSStyleDeclaration :=
  {| Style.position := position;
     Style.zIndex := zIndex;
     Style.display := display;
     Style.displayOutside := display;
     Style.displayInside := "flow";
     Style.float := float;
     Style.opacity := "1";
     Style.mixBlendMode := "normal";
     Style.transform := "none";
     Style.filter := "none";
     Style.perspective := "none";
     Style.clipPath := "none";
     Style.mask := "none";
     Style.maskImage := "none";
     Style.maskBorder := "none";
     Style.isolation := "auto";
     Style.webkitOverflowScrolling := "auto";
     Style.contain := "none";
     Style.willChange := willChange |}.

(** Every style property but position, z-index and the three display
    properties has its initial value. *)
Definition otherStylesInitial (styles : CSSStyleDeclaration) : Prop :=
  Style.float styles = "none"
  ∧ Style.opacity styles = "1"
  ∧ Style.mixBlendMode styles = "normal"
  ∧ Style.transform styles = "none"
  ∧ Style.filter styles = "none"
  ∧ Style.perspective styles = "none"
  ∧ Style.clipPath styles = "none"
  ∧ Style.mask styles = "none"
  ∧ Style.maskImage styles = "none"
  ∧ Style.maskBorder styles = "none"
  ∧ Style.isolation styles = "auto"
  ∧ Style.webkitOverflowScrolling styles = "auto"
  ∧ Style.contain styles = "none"
  ∧ Style.willChange styles = "auto".

(** A rendered document with a body (node 0) and four children of it:
    node 1 is relatively positioned with z-index auto, node 2 asks for
    will-change: clip-path, node 3 for will-change: opacity, and node 4 is a
    plain block. *)
Definition sampleWindow : Window :=
  {| getComputedStyle := fun id =>
       match id with
       | 1 => initialStyles "relative" "auto" "block" "none" "auto"
       | 2 => initialStyles "static" "auto" "block" "none" "clip-path"
       | 3 => initialStyles "static" "auto" "block" "none" "opacity"
       | _ => initialStyles "static" "auto" "block" "none" "auto"
       end |}.

Definition sampleDocument : Document := {| defaultView := Some sampleWindow |}.

Definition sampleBody : Node := mkNode 0 ElementNode (Some sampleDocument) None.

Definition sampleElement (id : NodeId) : Node :=
  mkNode id ElementNode (Some sampleDocument) (Some sampleBody).

Definition sampleText : Node := mkNode 5 TextNode (Some sampleDocument) (Some sampleBody).

(** The namespace of the sample output trees. *)
Definition sampleNamespace : string := "http://www.w3.org/2000/svg".

(** A stacking context on a root element (node 0) that has no child yet. *)
Definition sampleRoot : Dom :=
  {[ 0 := mkSVGElement sampleNamespace "svg" ∅ [] None ]}.

Definition sampleContext : StackingLayers * Dom :=
  createStackingLayers sampleNamespace 0 sampleRoot.

Definition sampleLayers : StackingLayers := fst sampleContext.

(** A new entry of a layer container, with the given [data-z-index]
    attribute or with none. *)
Definition addEntry (tree : Dom) (parent : NodeId) (zIndex : option string) : Dom :=
  let '(entry, tree) := createElementNS sampleNamespace "g" tree in
  let tree :=
    match zIndex with
    | Some z => alter (setDataset "zIndex" z) entry tree
    | None => tree
    end in
  append parent entry tree.

(** The layer of negative stack levels (node 2) and that of positive stack
    levels (node 7) of the sample context, with entries 8, 9 and 10. *)
Definition sampleNegative : Dom :=
  foldl (fun tree z => addEntry tree 2 (Some z)) (snd sampleContext) ["-3"; "-1"; "-2"].

Definition sampleTies : Dom :=
  foldl (fun tree z => addEntry tree 7 (Some z)) (snd sampleContext) ["2"; "1"; "2"].

Definition sampleNonInteger : Dom :=
  foldl (fun tree z => addEntry tree 7 (Some z)) (snd sampleContext) ["abc"; "1"].

Definition sampleMissing : Dom :=
  foldl (fun tree z => addEntry tree 7 z) (snd sampleContext) [None; Some "1"].

Definition sampleLone : Dom := addEntry (snd sampleContext) 7 None.

(** The same styles with another opacity. *)
Definition withOpacity (opacity : string) (styles : CSSStyleDeclaration)
    : CSSStyleDeclaration :=
  {| Style.position := Style.position styles;
     Style.zIndex := Style.zIndex styles;
     Style.display := Style.display styles;
     Style.displayOutside := Style.displayOutside styles;
     Style.displayInside := Style.displayInside styles;
     Style.float := Style.float styles;
     Style.opacity := opacity;
     Style.mixBlendMode := Style.mixBlendMode styles;
     Style.transform := Style.transform styles;
     Style.filter := Style.filter styles;
     Style.perspective := Style.perspective styles;
     Style.clipPath := Style.clipPath styles;
     Style.mask := Style.mask styles;
     Style.maskImage := Style.maskImage styles;
     Style.maskBorder := Style.maskBorder styles;
     Style.isolation := Style.isolation styles;
     Style.webkitOverflowScrolling := Style.webkitOverflowScrolling styles;
     Style.contain := Style.contain styles;
     Style.willChange := Style.willChange styles |}.

(** A second rendered document, whose body (node 0) is a flex container:
    nodes 1, 2 and 3 are positioned with z-index -1, 0 and 5; node 4 is an
    inline element, node 5 a float, node 6 is half transparent, node 7 has a
    will-change list with spaces, node 8 an opacity that is no number, and
    node 9 is a static block with z-index 3. *)
Definition stackedWindow : Window :=
  {| getComputedStyle := fun id =>
       match id with
       | 0 => initialStyles "static" "auto" "flex" "none" "auto"
       | 1 => initialStyles "relative" "-1" "block" "none" "auto"
       | 2 => initialStyles "absolute" "0" "block" "none" "auto"
       | 3 => initialStyles "fixed" "5" "block" "none" "auto"
       | 4 => initialStyles "static" "auto" "inline" "none" "auto"
       | 5 => initialStyles "static" "auto" "inline" "left" "auto"
       | 6 => withOpacity "0.5" (initialStyles "static" "auto" "block" "none" "auto")
       | 7 => initialStyles "static" "auto" "block" "none" "scroll-position,  transform "
       | 8 => withOpacity "" (initialStyles "static" "auto" "block" "none" "auto")
       | 9 => initialStyles "static" "3" "block" "none" "auto"
       | _ => initialStyles "static" "auto" "block" "none" "auto"
       end |}.

Definition stackedDocument : Document := {| defaultView := Some stackedWindow |}.

Definition stackedBody : Node := mkNode 0 ElementNode (Some stackedDocument) None.

Definition stackedElement (id : NodeId) : Node :=
  mkNode id ElementNode (Some stackedDocument) (Some stackedBody).

(** An element of a document that is rendered in no window. *)
Definition detachedElement : Node :=
  mkNode 1 ElementNode (Some {| defaultView := None |}) None.

(** None of the rules of [establishesStackingContext] but the will-change
    rule applies to these styles. *)
Definition noOtherTrigger (styles : CSSStyleDeclaration) : Prop :=
  Style.zIndex styles = "auto"
  ∧ Style.position styles ≠ "fixed"
  ∧ Style.position styles ≠ "sticky"
  ∧ JS.isOne (JS.parseFloat (Style.opacity styles)) = true
  ∧ Style.mixBlendMode styles = "normal"
  ∧ Style.transform styles = "none"
  ∧ Style.filter styles = "none"
  ∧ Style.perspective styles = "none"
  ∧ Style.clipPath styles = "none"
  ∧ Style.mask styles = "none"
  ∧ Style.maskImage styles = "none"
  ∧ Style.maskBorder styles = "none"
  ∧ Style.isolation styles ≠ "isolate"
  ∧ Style.webkitOverflowScrolling styles ≠ "touch"
  ∧ Style.contain styles ≠ "layout"
  ∧ Style.contain styles ≠ "paint"
  ∧ Style.contain styles ≠ "strict"
  ∧ Style.contain styles ≠ "content".

(** The same node under another parent element, or under none. *)
Definition withParent (parent : option Node) (node : Node) : Node :=
  mkNode (nodeId node) (nodeKind node) (ownerDocument node) parent.

(** The layer of negative stack levels of [sampleNegative]. *)
Definition sampleNegativeLayer : SVGElement :=
  setChildren [8; 9; 10]
    (emptyLayer sampleNamespace 0 childStackingContextsWithNegativeStackLevels).

(** [sampleNegative] with the entries of its layer of negative stack
    levels in ascending order. *)
Definition sortedNegative : Dom :=
  <[ 2 := setChildren [8; 10; 9] sampleNegativeLayer ]> sampleNegative.

(** A layer of positive stack levels whose entries are tagged with words. *)
Definition sampleWords : Dom :=
  foldl (fun tree z => addEntry tree 7 (Some z)) (snd sampleContext)
        ["high"; "low"; "middle"].

(** Entries in both sorted layers: 8, 9 and 10 in the layer of negative
    stack levels, 11 and 12 in that of positive stack levels. *)
Definition sampleBoth : Dom :=
  foldl (fun tree z => addEntry tree 7 (Some z)) sampleNegative ["20"; "10"].

(** ** The stacking predicate: errors and non-element nodes *)

Lemma ownerView_Some (node : Node) (view : Window) :
  ownerView node = Some view ↔
  ∃ document, ownerDocument node = Some document ∧ defaultView document = Some view.
Proof.
  unfold ownerView. destruct (ownerDocument node) as [document|]; simpl.
  - split; [eauto | intros (d & [= <-] & ?); done].
  - split; [done | intros (d & ? & _); done].
Qed.

(** C7: [establishesStackingContext] throws exactly when the node has no
    view to resolve styles with (no owner document, or one without a default
    view); on a node that is not an element and has such a view it returns
    false. *)
Theorem establishesStackingContext_throws_iff_no_view (node : Node) :
  ((∃ e, establishesStackingContext node = Throw e) ↔ ownerView node = None)
  ∧ (∀ view, ownerView node = Some view → Common.isElement node = false →
       establishesStackingContext node = Ok false).
Proof.
  unfold establishesStackingContext. split.
  - destruct (ownerView node) as [view|].
    + split; [|done]. intros [e He].
      destruct (negb (Common.isElement node)); discriminate.
    + split; [done|]. intros _. eauto.
  - intros view -> ->. reflexivity.
Qed.

Lemma establishesStackingContext_throws_iff_no_view_witness :
  establishesStackingContext sampleText = Ok false.
Proof.
  exact (proj2 (establishesStackingContext_throws_iff_no_view sampleText)
               sampleWindow eq_refl eq_refl).
Defined.

(** With a view, [establishesStackingContext] returns the style test. *)
Lemma establishesStackingContext_element (node : Node) (view : Window) :
  ownerView node = Some view → Common.isElement node = true →
  establishesStackingContext node =
    Ok (establishingStyles
          (getComputedStyle view (nodeId node))
          ((fun parent => getComputedStyle view (nodeId parent)) <$> parentElement node)).
Proof. unfold establishesStackingContext. intros -> ->. reflexivity. Qed.

(** ** The classifier *)

Section ClassifierFacts.

Variable isInFlow : Node -> CSSStyleDeclaration -> bool.
Variable isInline : CSSStyleDeclaration -> bool.

(** With z-index auto, the three rules that read the parsed z-index cannot
    match; a positioned element is excluded from the other three. *)
Lemma determineStackingLayer_unmatched (element : Node) (view : Window) :
  ownerView element = Some view →
  Common.isPositioned (getComputedStyle view (nodeId element)) = true →
  Style.zIndex (getComputedStyle view (nodeId element)) = "auto" →
  determineStackingLayer isInFlow isInline element =
    Throw (JsError "Did not find appropiate stacking layer").
Proof.
  intros Hview Hpos Hz. apply ownerView_Some in Hview as (document & Hdoc & Hview).
  unfold determineStackingLayer. rewrite Hdoc, Hview.
  cbv zeta. unfold parsedZIndex. rewrite Hz, Hpos. simpl.
  rewrite !andb_false_r. reflexivity.
Qed.

End ClassifierFacts.

(** C9: a layer that [determineStackingLayer] returns is never
    [rootBackgroundAndBorders], whatever the two flow predicates are. *)
Theorem determineStackingLayer_never_root
    (isInFlow : Node -> CSSStyleDeclaration -> bool)
    (isInline : CSSStyleDeclaration -> bool) (element : Node) (layer : LayerName) :
  determineStackingLayer isInFlow isInline element = Ok layer →
  layer ≠ rootBackgroundAndBorders.
Proof.
  unfold determineStackingLayer. intros H ->.
  destruct (ownerDocument element) as [document|]; [|discriminate].
  destruct (defaultView document) as [view|]; [|discriminate].
  cbv zeta in H.
  repeat match type of H with
         | context [mbind _ ?m] => destruct m as [[]|]; simpl in H
         | context [if ?b then _ else _] => destruct b; simpl in H
         end; discriminate.
Qed.

Lemma determineStackingLayer_never_root_witness :
  determineStackingLayer Common.isInFlow Common.isInline (sampleElement 4)
    = Ok inFlowNonInlineNonPositionedDescendants
  ∧ inFlowNonInlineNonPositionedDescendants ≠ rootBackgroundAndBorders.
Proof.
  split; [reflexivity|].
  apply (determineStackingLayer_never_root Common.isInFlow Common.isInline (sampleElement 4)).
  reflexivity.
Defined.

(** C1: the relatively positioned sample element with z-index auto is
    positioned and not taken by rules 1 to 4, and it is not given the layer
    of stack level zero: the parsed z-index is [undefined], which is not
    [=== 0], and [determineStackingLayer] throws. *)
Theorem determineStackingLayer_positioned_auto_throws :
  Common.isPositioned (getComputedStyle sampleWindow 1) = true
  ∧ Style.zIndex (getComputedStyle sampleWindow 1) = "auto"
  ∧ determineStackingLayer Common.isInFlow Common.isInline (sampleElement 1)
    = Throw (JsError "Did not find appropiate stacking layer").
Proof. repeat split. Qed.

(** In the rule of stack level zero the test [isPositioned] decides
    nothing: a positioned element whose z-index is not the keyword already
    establishes a stacking context. *)
Lemma positioned_with_zIndex_establishes
    (styles : CSSStyleDeclaration) (parentStyles : option CSSStyleDeclaration) :
  Common.isPositioned styles = true → Style.zIndex styles ≠ "auto" →
  establishingStyles styles parentStyles = true.
Proof.
  unfold Common.isPositioned, establishingStyles. intros Hpos Hz.
  apply String.eqb_neq in Hz. rewrite Hz. simpl negb.
  destruct (Style.position styles =? "relative")%string;
    destruct (Style.position styles =? "absolute")%string;
    destruct (Style.position styles =? "fixed")%string;
    destruct (Style.position styles =? "sticky")%string;
    try discriminate; reflexivity.
Qed.

(** An element with position fixed and z-index auto establishes a stacking
    context, and no rule places it either. *)
Lemma fixed_auto_context_unmatched
    (isInFlow : Node -> CSSStyleDeclaration -> bool)
    (isInline : CSSStyleDeclaration -> bool) (element : Node) (view : Window) :
  ownerView element = Some view →
  Common.isElement element = true →
  Style.position (getComputedStyle view (nodeId element)) = "fixed" →
  Style.zIndex (getComputedStyle view (nodeId element)) = "auto" →
  establishesStackingContext element = Ok true
  ∧ determineStackingLayer isInFlow isInline element
    = Throw (JsError "Did not find appropiate stacking layer").
Proof.
  intros Hview Helement Hpos Hz. split.
  - rewrite (establishesStackingContext_element element view) by done.
    unfold establishingStyles. rewrite Hpos. simpl. by rewrite ?orb_true_r.
  - apply determineStackingLayer_unmatched with view; [done| |done].
    unfold Common.isPositioned. by rewrite Hpos.
Qed.

(** The style test on an element with z-index auto, no will-change and the
    initial values elsewhere, positioned relatively. *)
Lemma establishingStyles_relative_auto
    (styles : CSSStyleDeclaration) (parentStyles : option CSSStyleDeclaration) :
  Style.position styles = "relative" → Style.zIndex styles = "auto" →
  otherStylesInitial styles →
  establishingStyles styles parentStyles = false.
Proof.
  unfold otherStylesInitial, establishingStyles.
  intros -> -> (_ & -> & -> & -> & -> & -> & -> & -> & -> & -> & -> & -> & -> & ->).
  destruct parentStyles as [p|]; simpl; rewrite ?andb_false_r; reflexivity.
Qed.

(** C2, as stated, fails on the relatively positioned sample element: it
    has the styles of the claim and establishes no stacking context, but it
    is classified into neither in-flow layer. *)
Lemma relative_auto_not_classified_in_flow :
  let styles := getComputedStyle sampleWindow 1 in
  Style.position styles = "relative" ∧ Style.zIndex styles = "auto"
  ∧ otherStylesInitial styles
  ∧ ¬ (establishesStackingContext (sampleElement 1) = Ok false
       ∧ (determineStackingLayer Common.isInFlow Common.isInline (sampleElement 1)
            = Ok inFlowNonInlineNonPositionedDescendants
          ∨ determineStackingLayer Common.isInFlow Common.isInline (sampleElement 1)
            = Ok inFlowInlineLevelNonPositionedDescendants)).
Proof.
  repeat split. intros [_ [H|H]]; discriminate H.
Qed.

(** C2, amended: an element with position relative, z-index auto and the
    initial values elsewhere establishes no stacking context, and it is not
    classified into any of the three layers of non-positioned descendants
    (in-flow block level, floats, in-flow inline level), whose rules all
    require an element that is not positioned. *)
Theorem relative_auto_no_context_no_flow_layer
    (isInFlow : Node -> CSSStyleDeclaration -> bool)
    (isInline : CSSStyleDeclaration -> bool) (element : Node) (view : Window) :
  ownerView element = Some view →
  Common.isElement element = true →
  Style.position (getComputedStyle view (nodeId element)) = "relative" →
  Style.zIndex (getComputedStyle view (nodeId element)) = "auto" →
  otherStylesInitial (getComputedStyle view (nodeId element)) →
  establishesStackingContext element = Ok false
  ∧ determineStackingLayer isInFlow isInline element
    ≠ Ok inFlowNonInlineNonPositionedDescendants
  ∧ determineStackingLayer isInFlow isInline element ≠ Ok nonPositionedFloats
  ∧ determineStackingLayer isInFlow isInline element
    ≠ Ok inFlowInlineLevelNonPositionedDescendants.
Proof.
  intros Hview Helement Hpos Hz Hother.
  assert (Common.isPositioned (getComputedStyle view (nodeId element)) = true) as Hp.
  { unfold Common.isPositioned. rewrite Hpos. reflexivity. }
  split.
  { rewrite (establishesStackingContext_element element view) by done.
    by rewrite establishingStyles_relative_auto. }
  apply ownerView_Some in Hview as (document & Hdoc & Hview).
  unfold determineStackingLayer. rewrite Hdoc, Hview. cbv zeta. rewrite Hp.
  simpl negb. rewrite !andb_false_r. simpl andb.
  repeat split; intros H;
    repeat match type of H with
           | context [mbind _ ?m] => destruct m as [[]|]; simpl in H
           | context [if ?b then _ else _] => destruct b; simpl in H
           end; discriminate.
Qed.

Lemma relative_auto_no_context_no_flow_layer_witness :
  establishesStackingContext (sampleElement 1) = Ok false
  ∧ determineStackingLayer Common.isInFlow Common.isInline (sampleElement 1)
    ≠ Ok inFlowNonInlineNonPositionedDescendants
  ∧ determineStackingLayer Common.isInFlow Common.isInline (sampleElement 1)
    ≠ Ok nonPositionedFloats
  ∧ determineStackingLayer Common.isInFlow Common.isInline (sampleElement 1)
    ≠ Ok inFlowInlineLevelNonPositionedDescendants.
Proof.
  apply (relative_auto_no_context_no_flow_layer
           Common.isInFlow Common.isInline (sampleElement 1) sampleWindow);
    first [reflexivity | repeat split].
Defined.

(** ** The will-change rule *)

(** An element whose will-change list has an item that, trimmed, is spelled
    like a member of [stackingContextEstablishingProperties] establishes a
    stacking context. *)
Lemma establishingStyles_willChange
    (styles : CSSStyleDeclaration) (parentStyles : option CSSStyleDeclaration)
    (property : string) :
  In property (JS.split "," (Style.willChange styles)) →
  JS.trim property ∈ stackingContextEstablishingProperties →
  establishingStyles styles parentStyles = true.
Proof.
  intros Hin Hmem. unfold establishingStyles.
  assert (JS.truthy (Style.willChange styles) = true) as ->.
  { destruct (Style.willChange styles); [|reflexivity].
    simpl in Hin. destruct Hin as [<-|[]]. revert Hmem. vm_compute. discriminate. }
  assert (some (fun property =>
                  bool_decide (JS.trim property ∈ stackingContextEstablishingProperties))
               (JS.split "," (Style.willChange styles)) = true) as ->.
  { apply existsb_exists. exists property. split; [done|]. by apply bool_decide_eq_true. }
  rewrite !orb_true_r. reflexivity.
Qed.

(** Scenario F: will-change: opacity on an element whose opacity is 1. *)
Lemma establishesStackingContext_willChange_opacity :
  Style.opacity (getComputedStyle sampleWindow 3) = "1"
  ∧ establishesStackingContext (sampleElement 3) = Ok true.
Proof. split; [reflexivity|]. vm_compute. reflexivity. Qed.

(** The will-change rule on each of the fourteen properties, named as a
    will-change list names them: the eight names of one word are found in
    the set, the six hyphenated ones are not. *)
Lemma willChange_css_property_names :
  map (fun name =>
         establishingStyles (initialStyles "static" "auto" "block" "none" name) None)
      [ "clip-path"; "contain"; "filter"; "isolation"; "mask"; "mask-border";
        "mask-image"; "mix-blend-mode"; "opacity"; "perspective"; "position";
        "transform"; "-webkit-overflow-scrolling"; "z-index" ]
  = [ false; true; true; true; true; false;
      false; false; true; true; true;
      true; false; false ].
Proof. vm_compute. reflexivity. Qed.

(** C3: will-change: clip-path does not make the sample element establish
    a stacking context: the list is compared with the names of the style
    object's properties ([clipPath]), not with those of the CSS properties
    that a will-change list holds. *)
Theorem establishesStackingContext_willChange_clipPath :
  Style.willChange (getComputedStyle sampleWindow 2) = "clip-path"
  ∧ establishesStackingContext (sampleElement 2) = Ok false.
Proof. split; [reflexivity|]. vm_compute. reflexivity. Qed.

(** ** The sort *)

Section SortFacts.

Context {A : Type}.
Variable comparefn : A -> A -> Result JS.Number.

(** Where an insertion puts the new element: behind a prefix of elements
    that all compare below it, and in front of an element, if one is left,
    that does not. *)
Lemma sortInsert_Ok (x : A) (sorted r : list A) :
  sortInsert comparefn x sorted = Ok r →
  ∃ pre post,
    sorted = pre ++ post ∧ r = pre ++ x :: post
    ∧ Forall (fun y => ∃ v, comparefn x y = Ok v ∧ JS.gtZero v = true) pre
    ∧ match post with
      | [] => True
      | y :: _ => ∃ v, comparefn x y = Ok v ∧ JS.gtZero v = false
      end.
Proof.
  revert r. induction sorted as [|y ys IH]; intros r H; simpl in H.
  - injection H as <-. exists [], []. by repeat split.
  - destruct (comparefn x y) as [v|e] eqn:Hxy; simpl in H; [|discriminate].
    destruct (JS.gtZero v) eqn:Hv.
    + destruct (sortInsert comparefn x ys) as [r'|e] eqn:Hins; simpl in H; [|discriminate].
      injection H as <-.
      destruct (IH r' eq_refl) as (pre & post & -> & -> & Hpre & Hpost).
      exists (y :: pre), post. repeat split; [|done].
      constructor; eauto.
    + injection H as <-. exists [], (y :: ys). repeat split; eauto.
Qed.

Lemma sortInsert_Permutation (x : A) (sorted r : list A) :
  sortInsert comparefn x sorted = Ok r → r ≡ₚ x :: sorted.
Proof.
  intros (pre & post & -> & -> & _)%sortInsert_Ok.
  by rewrite Permutation_middle.
Qed.

Lemma sort_Permutation (l r : list A) : sort comparefn l = Ok r → r ≡ₚ l.
Proof.
  revert r. induction l as [|x xs IH]; intros r H; simpl in H.
  - by injection H as <-.
  - destruct (sort comparefn xs) as [s|e]; simpl in H; [|discriminate].
    apply sortInsert_Permutation in H. rewrite H. by rewrite (IH s).
Qed.

(** The sort returns when the comparison function does on every pair. *)
Lemma sortInsert_returns (x : A) (sorted : list A) :
  (∀ y, y ∈ sorted → ∃ v, comparefn x y = Ok v) →
  ∃ r, sortInsert comparefn x sorted = Ok r.
Proof.
  induction sorted as [|y ys IH]; intros H; simpl; [eauto|].
  destruct (H y) as [v ->]; [by left|]. simpl.
  destruct (JS.gtZero v); [|eauto].
  destruct IH as [r ->]; [|simpl; eauto].
  intros z Hz. apply H. by right.
Qed.

Lemma sort_returns (l : list A) :
  (∀ x y, x ∈ l → y ∈ l → ∃ v, comparefn x y = Ok v) →
  ∃ r, sort comparefn l = Ok r.
Proof.
  induction l as [|x xs IH]; intros H; simpl; [eauto|].
  destruct IH as [s Hs].
  { intros y z Hy Hz. apply H; by right. }
  rewrite Hs. simpl. apply sortInsert_returns.
  intros y Hy. apply H; [by left|]. right.
  by rewrite <- (sort_Permutation _ _ Hs).
Qed.

(** An error of the sort is an error of the comparison function. *)
Lemma sortInsert_Throw (x : A) (sorted : list A) (e : Error) :
  sortInsert comparefn x sorted = Throw e → ∃ y, comparefn x y = Throw e.
Proof.
  induction sorted as [|y ys IH]; intros H; simpl in H; [discriminate|].
  destruct (comparefn x y) as [v|e'] eqn:Hxy; simpl in H.
  - destruct (JS.gtZero v); [|discriminate].
    destruct (sortInsert comparefn x ys) as [r'|e']; simpl in H; [discriminate|].
    injection H as ->. by apply IH.
  - injection H as ->. eauto.
Qed.

Lemma sort_Throw (l : list A) (e : Error) :
  sort comparefn l = Throw e → ∃ x y, comparefn x y = Throw e.
Proof.
  induction l as [|x xs IH]; intros H; simpl in H; [discriminate|].
  destruct (sort comparefn xs) as [s|e']; simpl in H.
  - apply sortInsert_Throw in H. eauto.
  - injection H as ->. by apply IH.
Qed.

(** When two or more elements are sorted, each of them is handed to the
    comparison function at least once. *)
Lemma sort_Ok_compared (l r : list A) (x : A) :
  sort comparefn l = Ok r → 2 ≤ length l → x ∈ l →
  ∃ y v, comparefn x y = Ok v ∨ comparefn y x = Ok v.
Proof.
  revert r. induction l as [|z zs IH]; intros r H Hlen Hx; simpl in *; [lia|].
  destruct (sort comparefn zs) as [s|e] eqn:Hs; simpl in H; [|discriminate].
  assert (s ≡ₚ zs) as Hperm by by apply sort_Permutation.
  destruct s as [|y ys].
  { apply Permutation_nil_l in Hperm. subst. simpl in Hlen. lia. }
  simpl in H. destruct (comparefn z y) as [v|e] eqn:Hzy; simpl in H; [|discriminate].
  apply elem_of_cons in Hx as [->|Hx]; [eauto|].
  destruct zs as [|z1 [|z2 zs]].
  - by apply elem_of_nil in Hx.
  - apply Permutation_length in Hperm as Hl. destruct ys; [|discriminate Hl].
    apply Permutation_singleton_l in Hperm. injection Hperm as ->.
    apply list_elem_of_singleton in Hx as ->. eauto.
  - apply (IH (y :: ys)); [done|simpl; lia|done].
Qed.

(** Stability: the elements of a class whose members never compare above
    one another come out of the sort in the order they went in. *)
Lemma sort_filter (P : A → Prop) `{!∀ x, Decision (P x)} (l r : list A) :
  (∀ x y v, P x → P y → comparefn x y = Ok v → JS.gtZero v = false) →
  sort comparefn l = Ok r →
  filter P r = filter P l.
Proof.
  intros Hclass. revert r. induction l as [|x xs IH]; intros r Hs; simpl in Hs.
  - by injection Hs as <-.
  - destruct (sort comparefn xs) as [s|e]; simpl in Hs; [|discriminate].
    apply sortInsert_Ok in Hs as (pre & post & -> & -> & Hpre & _).
    specialize (IH _ eq_refl). rewrite filter_app in IH.
    rewrite filter_app, !filter_cons. destruct (decide (P x)) as [Hx|Hx].
    + assert (filter P pre = []) as Hnil.
      { clear IH. induction Hpre as [|y pre (v & Hv & Hgt) _ IHpre]; [done|].
        rewrite filter_cons_False; [done|].
        intros Hy. by rewrite (Hclass x y v Hx Hy Hv) in Hgt. }
      rewrite Hnil in *. simpl in *. by rewrite IH.
    + done.
Qed.

End SortFacts.

Lemma sublist_filter_mono {A : Type} (P : A → Prop) `{!∀ x, Decision (P x)}
    (l1 l2 : list A) :
  l1 `sublist_of` l2 → filter P l1 `sublist_of` filter P l2.
Proof.
  induction 1 as [|x l1 l2 _ IH|x l1 l2 _ IH]; [done| |];
    rewrite ?filter_cons; destruct (decide (P x));
    auto using sublist_skip, sublist_cons.
Qed.

(** A number minus itself is never above zero. *)
Lemma gtZero_sub_diag (k : JS.Number) : JS.gtZero (JS.sub k k) = false.
Proof.
  destruct k as [|s|z]; simpl; [done| |].
  - by rewrite Bool.eqb_reflx.
  - by rewrite Z.sub_diag.
Qed.

(** ** The tree under [append] *)

Lemma setChildren_children (e : SVGElement) : setChildren (children e) e = e.
Proof. by destruct e. Qed.

Lemma setChildren_setChildren (cs cs' : list NodeId) (e : SVGElement) :
  setChildren cs (setChildren cs' e) = setChildren cs e.
Proof. done. Qed.

Lemma childrenOf_insert (tree : Dom) (parent : NodeId) (e : SVGElement) :
  childrenOf (<[parent := e]> tree) parent = children e.
Proof. unfold childrenOf. by rewrite lookup_insert_eq. Qed.

Lemma childrenOf_insert_ne (tree : Dom) (parent other : NodeId) (e : SVGElement) :
  parent ≠ other → childrenOf (<[parent := e]> tree) other = childrenOf tree other.
Proof. intros. unfold childrenOf. by rewrite lookup_insert_ne. Qed.

(** Appending one of its own children to a parent moves the child to the
    end, and changes nothing else in the tree. *)
Lemma append_own_child (tree : Dom) (parent child : NodeId) (pe : SVGElement) :
  tree !! parent = Some pe → child ≠ parent →
  tree !! child ≫= parentNode = Some parent →
  append parent child tree
    = <[parent := setChildren (moveToEnd child (children pe)) pe]> tree.
Proof.
  intros Hp Hne Hc. unfold append, removeFromParent. rewrite Hc.
  destruct (tree !! child) as [ce|] eqn:Hce; [|discriminate]. simpl in Hc.
  apply map_eq. intros i.
  destruct (decide (i = parent)) as [->|Hip].
  - rewrite lookup_insert_eq, lookup_alter_eq, lookup_alter_ne, lookup_alter_eq by done.
    rewrite lookup_alter_ne by done. rewrite Hp. reflexivity.
  - rewrite lookup_insert_ne, lookup_alter_ne by done.
    destruct (decide (i = child)) as [->|Hic].
    + rewrite lookup_alter_eq, lookup_alter_ne, lookup_alter_eq, Hce by done.
      destruct ce; simpl in *. by subst.
    + by rewrite !lookup_alter_ne by done.
Qed.

(** The loop of [sortChildrenByZIndex] on children of the parent. *)
Lemma foldl_append_own_children (cs : list NodeId) (tree : Dom) (parent : NodeId)
    (pe : SVGElement) :
  tree !! parent = Some pe →
  (∀ c, c ∈ cs → c ≠ parent ∧ tree !! c ≫= parentNode = Some parent) →
  foldl (fun tree child => append parent child tree) tree cs
    = <[parent := setChildren (foldl (fun l c => moveToEnd c l) (children pe) cs) pe]> tree.
Proof.
  revert tree pe. induction cs as [|c cs IH]; intros tree pe Hp Hcs; simpl.
  - rewrite setChildren_children. by rewrite insert_id.
  - destruct (Hcs c) as [Hne Hc]; [by left|].
    rewrite (append_own_child tree parent c pe) by done.
    rewrite (IH _ (setChildren (moveToEnd c (children pe)) pe)).
    + by rewrite insert_insert_eq.
    + by rewrite lookup_insert_eq.
    + intros c' Hc'. destruct (Hcs c') as [Hne' Hpar]; [by right|].
      split; [done|]. by rewrite lookup_insert_ne.
Qed.

Lemma filter_none {A : Type} (P : A → Prop) `{!∀ x, Decision (P x)} (l : list A) :
  (∀ x, x ∈ l → ¬ P x) → filter P l = [].
Proof.
  induction l as [|x l IH]; intros Hl; [done|].
  rewrite filter_cons_False by (apply Hl; by left).
  apply IH. intros y Hy. apply Hl. by right.
Qed.

(** Moving every element of a duplicate-free list to the end, one after
    the other, leaves that list behind what was not moved. *)
Lemma foldl_moveToEnd (cs l : list NodeId) :
  NoDup cs →
  foldl (fun l c => moveToEnd c l) l cs = filter (fun x => x ∉ cs) l ++ cs.
Proof.
  revert l. induction cs as [|c cs IH]; intros l Hnd; simpl.
  - rewrite app_nil_r. induction l as [|x l IHl]; [done|].
    rewrite filter_cons_True by apply not_elem_of_nil. by rewrite <- IHl.
  - apply NoDup_cons in Hnd as [Hc Hnd]. rewrite IH by done. unfold moveToEnd.
    rewrite filter_app, list_filter_filter, filter_cons_True, filter_nil by done.
    rewrite <- app_assoc. simpl. f_equal.
    apply list_filter_iff. intros x. rewrite not_elem_of_cons. tauto.
Qed.

Lemma foldl_moveToEnd_Permutation (cs l : list NodeId) :
  NoDup l → cs ≡ₚ l → foldl (fun l c => moveToEnd c l) l cs = cs.
Proof.
  intros Hnd Hperm. rewrite foldl_moveToEnd by by rewrite Hperm.
  rewrite filter_none; [done|].
  intros x Hx Hnot. apply Hnot. by rewrite Hperm.
Qed.

(** What [childrenAttached] says. *)
Lemma childrenAttached_spec (tree : Dom) (parent : NodeId) :
  childrenAttached tree parent = true →
  NoDup (childrenOf tree parent)
  ∧ ∀ c, c ∈ childrenOf tree parent →
         c ≠ parent ∧ tree !! c ≫= parentNode = Some parent.
Proof.
  unfold childrenAttached. rewrite !andb_true_iff, !bool_decide_eq_true, forallb_forall.
  intros [[Hnd Hnot] Hall]. split; [done|]. intros c Hc. split.
  - intros ->. done.
  - eapply bool_decide_eq_true_1, Hall. by apply list_elem_of_In.
Qed.

(** When the sort of the children returns, [sortChildrenByZIndex] leaves
    the sorted list as the children of the parent; every other element is as
    it was, and the parent itself is but for its children. *)
Lemma sortChildrenByZIndex_sorted (tree : Dom) (parent : NodeId) (sorted : list NodeId) :
  childrenAttached tree parent = true →
  sort (compareZIndex tree) (childrenOf tree parent) = Ok sorted →
  ∃ tree', sortChildrenByZIndex parent tree = Ok tree'
    ∧ childrenOf tree' parent = sorted
    ∧ (∀ other, other ≠ parent → tree' !! other = tree !! other)
    ∧ (∀ c, setChildren [] <$> tree' !! c = setChildren [] <$> tree !! c).
Proof.
  intros [Hnd Hatt]%childrenAttached_spec Hsort.
  unfold sortChildrenByZIndex. rewrite Hsort. simpl.
  eexists. split; [reflexivity|].
  pose proof (sort_Permutation _ _ _ Hsort) as Hperm.
  destruct (tree !! parent) as [pe|] eqn:Hp.
  - rewrite (foldl_append_own_children sorted tree parent pe Hp).
    + assert (childrenOf tree parent = children pe) as Hcs
        by (unfold childrenOf; by rewrite Hp).
      rewrite Hcs in *. rewrite foldl_moveToEnd_Permutation by done.
      rewrite childrenOf_insert. split; [done|]. split.
      * intros other Hne. by rewrite lookup_insert_ne.
      * intros c. destruct (decide (parent = c)) as [<-|Hne].
        -- by rewrite lookup_insert_eq, Hp.
        -- by rewrite lookup_insert_ne.
    + intros c Hc. apply Hatt. by rewrite <- Hperm.
  - assert (childrenOf tree parent = []) as Hcs
      by (unfold childrenOf; by rewrite Hp).
    rewrite Hcs in Hperm. apply Permutation_nil_r in Hperm. subst sorted.
    simpl. by rewrite Hcs.
Qed.

Lemma forallb_pointwise {A : Type} (f g : A → bool) (l : list A) :
  (∀ x, f x = g x) → forallb f l = forallb g l.
Proof. intros Hfg. induction l as [|x l IH]; simpl; [done|]. by rewrite Hfg, IH. Qed.

(** What does not depend on the children of the elements is the same in
    two trees that differ in children only. *)
Section SameButChildren.

Variables tree tree' : Dom.
Hypothesis same : ∀ c, setChildren [] <$> tree' !! c = setChildren [] <$> tree !! c.

Lemma same_datasetOf (c : NodeId) (key : string) :
  datasetOf tree' c key = datasetOf tree c key.
Proof.
  unfold datasetOf. specialize (same c).
  destruct (tree' !! c) as [[]|], (tree !! c) as [[]|]; by simplify_eq/=.
Qed.

Lemma same_parentNode (c : NodeId) :
  tree' !! c ≫= parentNode = tree !! c ≫= parentNode.
Proof.
  specialize (same c).
  destruct (tree' !! c) as [[]|], (tree !! c) as [[]|]; by simplify_eq/=.
Qed.

Lemma same_hasZIndexTag (c : NodeId) : hasZIndexTag tree' c = hasZIndexTag tree c.
Proof. unfold hasZIndexTag. by rewrite same_datasetOf. Qed.

Lemma same_childrenAttached (parent : NodeId) :
  childrenOf tree' parent = childrenOf tree parent →
  childrenAttached tree' parent = childrenAttached tree parent.
Proof.
  intros Hcs. unfold childrenAttached. rewrite Hcs. f_equal.
  apply forallb_pointwise. intros c. by rewrite same_parentNode.
Qed.

End SameButChildren.

(** ** The comparison function *)

Lemma compareZIndex_tagged (tree : Dom) (a b : NodeId) :
  hasZIndexTag tree a = true → hasZIndexTag tree b = true →
  compareZIndex tree a b = Ok (JS.sub (zIndexKey tree a) (zIndexKey tree b)).
Proof.
  unfold hasZIndexTag, zIndexKey, compareZIndex.
  destruct (datasetOf tree a "zIndex") as [za|]; [|discriminate].
  destruct (datasetOf tree b "zIndex") as [zb|]; [|by destruct (JS.truthy za)].
  simpl. by intros -> ->.
Qed.

Lemma compareZIndex_Ok (tree : Dom) (a b : NodeId) (v : JS.Number) :
  compareZIndex tree a b = Ok v →
  hasZIndexTag tree a = true ∧ hasZIndexTag tree b = true
  ∧ v = JS.sub (zIndexKey tree a) (zIndexKey tree b).
Proof.
  unfold hasZIndexTag, zIndexKey, compareZIndex.
  destruct (datasetOf tree a "zIndex") as [za|]; [|discriminate].
  destruct (datasetOf tree b "zIndex") as [zb|]; [|discriminate].
  simpl. destruct (JS.truthy za), (JS.truthy zb); simpl; try discriminate.
  by intros [= <-].
Qed.

Lemma compareZIndex_Throw (tree : Dom) (a b : NodeId) (e : Error) :
  compareZIndex tree a b = Throw e →
  e = JsError "Expected node to have data-z-index attribute".
Proof.
  unfold compareZIndex.
  destruct (datasetOf tree a "zIndex") as [za|]; [|by intros [= <-]].
  destruct (datasetOf tree b "zIndex") as [zb|]; [|by intros [= <-]].
  destruct (negb (JS.truthy za) || negb (JS.truthy zb)); [by intros [= <-]|discriminate].
Qed.

(** ** [sortChildrenByZIndex] *)

(** The sort returns when every child has a [data-z-index] attribute that
    is not empty. *)
Lemma sort_compareZIndex_returns (tree : Dom) (cs : list NodeId) :
  forallb (hasZIndexTag tree) cs = true →
  ∃ sorted, sort (compareZIndex tree) cs = Ok sorted.
Proof.
  rewrite forallb_forall. intros Htag. apply sort_returns.
  intros x y Hx%list_elem_of_In Hy%list_elem_of_In.
  rewrite compareZIndex_tagged by auto. eauto.
Qed.

(** C10: when every child of the parent has a [data-z-index] attribute
    that is not empty, [sortChildrenByZIndex] returns, and the children of
    the parent are afterwards a permutation of what they were. *)
Theorem sortChildrenByZIndex_permutation (tree : Dom) (parent : NodeId) :
  childrenAttached tree parent = true →
  forallb (hasZIndexTag tree) (childrenOf tree parent) = true →
  ∃ tree', sortChildrenByZIndex parent tree = Ok tree'
    ∧ childrenOf tree' parent ≡ₚ childrenOf tree parent.
Proof.
  intros Hatt Htag.
  destruct (sort_compareZIndex_returns _ _ Htag) as [sorted Hsort].
  destruct (sortChildrenByZIndex_sorted _ _ _ Hatt Hsort) as (tree' & Hok & Hcs & _).
  exists tree'. split; [done|]. rewrite Hcs. by eapply sort_Permutation.
Qed.

Lemma sortChildrenByZIndex_permutation_witness :
  ∃ tree', sortChildrenByZIndex 2 sampleNegative = Ok tree'
    ∧ childrenOf tree' 2 ≡ₚ childrenOf sampleNegative 2.
Proof.
  apply (sortChildrenByZIndex_permutation sampleNegative 2); vm_compute; reflexivity.
Defined.

(** C5: when every child of the parent has a [data-z-index] attribute that
    parses to an integer, [sortChildrenByZIndex] returns, and of two children
    with the same number the one that came first still comes first. *)
Theorem sortChildrenByZIndex_stable (tree : Dom) (parent : NodeId) :
  childrenAttached tree parent = true →
  forallb (hasIntegerZIndexTag tree) (childrenOf tree parent) = true →
  ∃ tree', sortChildrenByZIndex parent tree = Ok tree'
    ∧ ∀ a b, zIndexKey tree a = zIndexKey tree b →
        precedes a b (childrenOf tree parent) →
        precedes a b (childrenOf tree' parent).
Proof.
  intros Hatt Htag.
  assert (forallb (hasZIndexTag tree) (childrenOf tree parent) = true) as Htag'.
  { rewrite forallb_forall in *. intros c Hc.
    specialize (Htag c Hc). unfold hasIntegerZIndexTag in Htag.
    by apply andb_true_iff in Htag as [? _]. }
  destruct (sort_compareZIndex_returns _ _ Htag') as [sorted Hsort].
  destruct (sortChildrenByZIndex_sorted _ _ _ Hatt Hsort) as (tree' & Hok & Hcs & _).
  exists tree'. split; [done|]. rewrite Hcs. unfold precedes. intros a b Hkey Hab.
  set (P := fun c => zIndexKey tree c = zIndexKey tree a).
  assert (filter P sorted = filter P (childrenOf tree parent)) as Hfilter.
  { apply (sort_filter (compareZIndex tree) P); [|done].
    intros x y v Hx Hy (_ & _ & ->)%compareZIndex_Ok.
    unfold P in Hx, Hy. rewrite Hx, Hy. apply gtZero_sub_diag. }
  assert (filter P [a; b] = [a; b]) as Hab'.
  { rewrite !filter_cons_True; unfold P; done. }
  rewrite <- Hab'. etrans; [by apply sublist_filter_mono|].
  rewrite <- Hfilter. apply sublist_filter.
Qed.

Lemma sortChildrenByZIndex_stable_witness :
  ∃ tree', sortChildrenByZIndex 7 sampleTies = Ok tree'
    ∧ precedes 8 10 (childrenOf tree' 7).
Proof.
  destruct (sortChildrenByZIndex_stable sampleTies 7) as (tree' & Hok & Hstable);
    [vm_compute; reflexivity..|].
  exists tree'. split; [done|]. apply Hstable; [vm_compute; reflexivity|].
  unfold precedes. vm_compute. apply sublist_skip, sublist_cons, sublist_skip, sublist_nil.
Defined.

(** C4, as stated, fails on a container with the entries tagged abc and 1:
    the first tag does not parse to an integer, and the sort returns. *)
Lemma sortChildrenByZIndex_nonInteger_returns :
  childrenOf sampleNonInteger 7 = [8; 9]
  ∧ datasetOf sampleNonInteger 8 "zIndex" = Some "abc"
  ∧ JS.parseInt "abc" = JS.NaN
  ∧ ∀ e, sortChildrenByZIndex 7 sampleNonInteger ≠ Throw e.
Proof.
  repeat split; try (vm_compute; reflexivity).
  intros e. vm_compute. discriminate.
Qed.

(** A single child is never handed to the comparison function: it may lack
    the attribute. *)
Lemma sortChildrenByZIndex_lone_returns :
  childrenOf sampleLone 7 = [8]
  ∧ datasetOf sampleLone 8 "zIndex" = None
  ∧ sortChildrenByZIndex 7 sampleLone = Ok sampleLone.
Proof.
  repeat split; vm_compute; reflexivity.
Qed.

(** C4, amended: when the parent has two children or more and one of them
    has no [data-z-index] attribute, or an empty one, [sortChildrenByZIndex]
    throws. *)
Theorem sortChildrenByZIndex_missing_tag_throws (tree : Dom) (parent c : NodeId) :
  2 ≤ length (childrenOf tree parent) →
  c ∈ childrenOf tree parent →
  hasZIndexTag tree c = false →
  sortChildrenByZIndex parent tree
    = Throw (JsError "Expected node to have data-z-index attribute").
Proof.
  intros Hlen Hc Htag. unfold sortChildrenByZIndex.
  destruct (sort (compareZIndex tree) (childrenOf tree parent)) as [sorted|e] eqn:Hsort.
  - destruct (sort_Ok_compared _ _ _ c Hsort Hlen Hc) as (y & v & [H|H]);
      apply compareZIndex_Ok in H as (Ha & Hb & _); congruence.
  - simpl. apply sort_Throw in Hsort as (x & y & ->%compareZIndex_Throw). done.
Qed.

Lemma sortChildrenByZIndex_missing_tag_throws_witness :
  sortChildrenByZIndex 7 sampleMissing
    = Throw (JsError "Expected node to have data-z-index attribute").
Proof.
  apply (sortChildrenByZIndex_missing_tag_throws sampleMissing 7 8).
  - vm_compute. lia.
  - vm_compute. apply list_elem_of_here.
  - vm_compute. reflexivity.
Defined.

(** C6: a layer of negative stack levels with the three entries tagged
    -3, -1 and -2, in this order, has them in the order -3, -2, -1 after
    [sortStackingLayerChildren], when the entries of the layer of positive
    stack levels have their tags too. *)
Theorem sortStackingLayerChildren_negative_ascending
    (tree : Dom) (layers : StackingLayers) (a b c : NodeId) :
  let negative := layer_childStackingContextsWithNegativeStackLevels layers in
  let positive := layer_childStackingContextsWithPositiveStackLevels layers in
  negative ≠ positive →
  childrenAttached tree negative = true →
  childrenOf tree negative = [a; b; c] →
  datasetOf tree a "zIndex" = Some "-3" →
  datasetOf tree b "zIndex" = Some "-1" →
  datasetOf tree c "zIndex" = Some "-2" →
  childrenAttached tree positive = true →
  forallb (hasZIndexTag tree) (childrenOf tree positive) = true →
  ∃ tree', sortStackingLayerChildren layers tree = Ok tree'
    ∧ childrenOf tree' negative = [a; c; b].
Proof.
  intros negative positive Hne Hatt Hcs Ha Hb Hc Hatt7 Htag7.
  assert (sort (compareZIndex tree) (childrenOf tree negative) = Ok [a; c; b]) as Hsort.
  { assert (compareZIndex tree b c = Ok (JS.Finite 1)) as Hbc
      by (unfold compareZIndex; rewrite Hb, Hc; vm_compute; reflexivity).
    assert (compareZIndex tree a c = Ok (JS.Finite (-1))) as Hac
      by (unfold compareZIndex; rewrite Ha, Hc; vm_compute; reflexivity).
    rewrite Hcs. cbn -[compareZIndex]. rewrite Hbc. cbn -[compareZIndex].
    rewrite Hac. reflexivity. }
  destruct (sortChildrenByZIndex_sorted _ _ _ Hatt Hsort)
    as (tree1 & Hok & Hcs1 & Hother & Hsame).
  assert (childrenOf tree1 positive = childrenOf tree positive) as Hcs7.
  { unfold childrenOf. by rewrite Hother. }
  assert (childrenAttached tree1 positive = true) as Hatt7'.
  { by rewrite (same_childrenAttached tree tree1). }
  assert (forallb (hasZIndexTag tree1) (childrenOf tree1 positive) = true) as Htag7'.
  { rewrite Hcs7, <- Htag7. apply forallb_pointwise. intros x. by apply same_hasZIndexTag. }
  destruct (sort_compareZIndex_returns _ _ Htag7') as [sorted7 Hsort7].
  destruct (sortChildrenByZIndex_sorted _ _ _ Hatt7' Hsort7)
    as (tree2 & Hok2 & _ & Hother2 & _).
  exists tree2. unfold sortStackingLayerChildren. fold negative positive.
  rewrite Hok. simpl. split; [done|].
  unfold childrenOf in *. by rewrite Hother2.
Qed.

Lemma sortStackingLayerChildren_negative_ascending_witness :
  ∃ tree', sortStackingLayerChildren sampleLayers sampleNegative = Ok tree'
    ∧ childrenOf tree' 2 = [8; 10; 9].
Proof.
  apply (sortStackingLayerChildren_negative_ascending sampleNegative sampleLayers 8 9 10);
    vm_compute; first [reflexivity | discriminate].
Defined.

(** ** [createStackingLayers] *)

Lemma Forall2_impl_elem_of {A B : Type} (P Q : A → B → Prop) (l : list A) (k : list B) :
  Forall2 P l k → (∀ x y, x ∈ l → P x y → Q x y) → Forall2 Q l k.
Proof.
  induction 1 as [|x y l k Hxy _ IH]; intros Himpl; constructor.
  - apply Himpl; [by left|done].
  - apply IH. intros x' y' Hx'. apply Himpl. by right.
Qed.

Section LayersFacts.

Variable svgNamespace : string.

(** One call of [createStackingLayer]: the layer is an element that was
    not in the tree, and it becomes the last child of the parent. *)
Lemma createStackingLayer_spec (parent : NodeId) (name : LayerName) (tree : Dom)
    (pe : SVGElement) :
  tree !! parent = Some pe →
  ∃ layer,
    tree !! layer = None
    ∧ createStackingLayer svgNamespace parent name tree
      = (layer, <[parent := setChildren (children pe ++ [layer]) pe]>
                  (<[layer := emptyLayer svgNamespace parent name]> tree)).
Proof.
  intros Hp. exists (fresh (dom tree : gset NodeId)).
  assert (tree !! fresh (dom tree : gset NodeId) = None) as Hfresh.
  { apply not_elem_of_dom, is_fresh. }
  split; [done|].
  unfold createStackingLayer, createElementNS. cbv zeta. f_equal.
  set (layer := fresh (dom tree : gset NodeId)) in *.
  assert (layer ≠ parent) as Hne by (intros ->; congruence).
  rewrite alter_insert_eq. unfold append, removeFromParent.
  rewrite lookup_insert_eq. simpl. rewrite alter_insert_eq.
  rewrite (alter_alt_Some _ _ parent pe) by by rewrite lookup_insert_ne.
  reflexivity.
Qed.

Lemma LayersCreated_step (tree0 : Dom) (container : NodeId) (ce : SVGElement)
    (ids : list NodeId) (names : list LayerName) (tree : Dom) (name : LayerName) :
  tree0 !! container = Some ce →
  LayersCreated svgNamespace tree0 container ce ids names tree →
  ∃ layer tree',
    createStackingLayer svgNamespace container name tree = (layer, tree')
    ∧ LayersCreated svgNamespace tree0 container ce (ids ++ [layer]) (names ++ [name]) tree'.
Proof.
  intros Hce [Hcont Hlayers Hfresh Hnd Hothers].
  destruct (createStackingLayer_spec container name tree _ Hcont) as (layer & Hnone & ->).
  assert (layer ≠ container) as Hlc by (intros ->; congruence).
  assert (layer ∉ ids) as Hnotin.
  { intros Hin. apply list_elem_of_lookup in Hin as [k Hk].
    destruct (Forall2_lookup_l _ _ _ _ _ Hlayers Hk) as (n & _ & Hl). congruence. }
  eexists _, _. split; [reflexivity|]. split.
  - rewrite lookup_insert_eq. simpl. by rewrite <- app_assoc.
  - apply Forall2_app.
    + eapply Forall2_impl_elem_of; [exact Hlayers|]. intros id n Hin Hid. simpl in Hid.
      rewrite Forall_forall in Hfresh. specialize (Hfresh id Hin).
      rewrite !lookup_insert_ne; [done|congruence|congruence].
    + constructor; [|constructor].
      by rewrite lookup_insert_ne, lookup_insert_eq.
  - apply Forall_app. split; [done|]. constructor; [|constructor].
    rewrite <- (Hothers layer) by done. done.
  - apply NoDup_app. split; [done|]. split; [|apply NoDup_singleton].
    intros x Hx ->%list_elem_of_singleton. done.
  - intros i Hic Hi. apply not_elem_of_app in Hi as [Hi Hil].
    rewrite list_elem_of_singleton in Hil.
    rewrite !lookup_insert_ne by done. by apply Hothers.
Qed.

End LayersFacts.

(** One of the seven calls in [createStackingLayers]: the call at the head
    of the goal is replaced by its result, and the invariant is carried
    on. *)
Ltac create_layer Hce Hinv :=
  match goal with
  | |- context [createStackingLayer ?ns ?container ?name ?tree] =>
      let layer := fresh "layer" in
      let tree' := fresh "tree" in
      let Hcreate := fresh "Hcreate" in
      destruct (LayersCreated_step ns _ container _ _ _ tree name Hce Hinv)
        as (layer & tree' & Hcreate & Hinv');
      rewrite Hcreate; clear Hcreate Hinv; rename Hinv' into Hinv;
      simpl app in Hinv
  end.

(** C8: [createStackingLayers] appends seven layer containers to the
    container, in the declaration order of the seven layers; each is a new
    [g] element without children whose [data-stacking-layer] attribute is
    the name of its layer, and the container is marked as a stacking
    context. *)
Theorem createStackingLayers_seven_layers
    (svgNamespace : string) (tree : Dom) (container : NodeId) (ce : SVGElement) :
  tree !! container = Some ce →
  ∃ layers tree',
    createStackingLayers svgNamespace container tree = (layers, tree')
    ∧ childrenOf tree' container = children ce ++ layerIds layers
    ∧ NoDup (layerIds layers)
    ∧ Forall (fun id => tree !! id = None) (layerIds layers)
    ∧ Forall2 (fun id name => tree' !! id = Some (emptyLayer svgNamespace container name))
              (layerIds layers) layerNames
    ∧ datasetOf tree' container "stackingContext" = Some "true".
Proof.
  intros Hce. unfold createStackingLayers.
  assert (LayersCreated svgNamespace tree container ce [] []
            (alter (setDataset "stackingContext" "true") container tree)) as Hinv.
  { rewrite (alter_alt_Some _ _ _ _ Hce). split.
    - rewrite lookup_insert_eq, app_nil_r. by destruct ce.
    - constructor.
    - constructor.
    - constructor.
    - intros i Hi _. by rewrite lookup_insert_ne. }
  do 7 create_layer Hce Hinv.
  destruct Hinv as [Hcont Hlayers Hfresh Hnd _].
  eexists _, _. split; [reflexivity|].
  unfold layerIds, layerNames, childrenOf, datasetOf. simpl. rewrite Hcont. simpl.
  repeat split; try done.
  by rewrite lookup_insert_eq.
Qed.

Lemma createStackingLayers_seven_layers_witness :
  ∃ layers tree',
    createStackingLayers sampleNamespace 0 sampleRoot = (layers, tree')
    ∧ childrenOf tree' 0 = [] ++ layerIds layers
    ∧ NoDup (layerIds layers)
    ∧ Forall (fun id => sampleRoot !! id = None) (layerIds layers)
    ∧ Forall2 (fun id name => tree' !! id = Some (emptyLayer sampleNamespace 0 name))
              (layerIds layers) layerNames
    ∧ datasetOf tree' 0 "stackingContext" = Some "true".
Proof.
  apply (createStackingLayers_seven_layers sampleNamespace sampleRoot 0
           (mkSVGElement sampleNamespace "svg" ∅ [] None)).
  reflexivity.
Defined.

(** ** The order of the sort *)

(** The quotient that rounding starts from is positive. *)
Lemma shiftr_rounding_pos (a : Z) :
  (2 ^ 53 ≤ a)%Z → (1 ≤ Z.log2 a - 52 ∧ 1 ≤ Z.shiftr a (Z.log2 a - 52))%Z.
Proof.
  intros Ha.
  assert (0 < 2 ^ 53)%Z as Hp by (apply Z.pow_pos_nonneg; lia).
  assert (53 ≤ Z.log2 a)%Z as Hl by (apply Z.log2_le_pow2; lia).
  split; [lia|].
  rewrite Z.shiftr_div_pow2 by lia.
  assert (0 < 2 ^ (Z.log2 a - 52))%Z by (apply Z.pow_pos_nonneg; lia).
  apply Z.div_le_lower_bound; [lia|].
  rewrite Z.mul_1_r. transitivity (2 ^ Z.log2 a)%Z.
  - apply Z.pow_le_mono_r; lia.
  - apply Z.log2_spec. lia.
Qed.

(** Rounding an integer to a double keeps its sign. *)
Lemma gtZero_ofInteger (z : Z) : JS.gtZero (JS.ofInteger z) = (0 <? z)%Z.
Proof.
  unfold JS.ofInteger.
  destruct (Z.abs z <? 2 ^ 53)%Z eqn:Hsmall; [done|].
  apply Z.ltb_ge in Hsmall.
  destruct (shiftr_rounding_pos _ Hsmall) as [Hk Hq].
  set (k := (Z.log2 (Z.abs z) - 52)%Z) in *.
  set (q := Z.shiftr (Z.abs z) k) in *.
  match goal with
  | |- context [if ?c then (q + 1)%Z else q] => set (q' := if c then (q + 1)%Z else q)
  end.
  assert (1 ≤ q')%Z as Hq' by (unfold q'; destruct (_ || _); lia).
  assert (0 < Z.shiftl q' k)%Z as Hv.
  { rewrite Z.shiftl_mul_pow2 by lia.
    assert (0 < 2 ^ k)%Z by (apply Z.pow_pos_nonneg; lia). nia. }
  assert (0 < 2 ^ 53)%Z as Hp by (apply Z.pow_pos_nonneg; lia).
  destruct (2 ^ 1024 <=? Z.shiftl q' k)%Z; unfold JS.gtZero.
  - destruct (Z.ltb_spec z 0), (Z.ltb_spec 0 z); simpl; try done; lia.
  - destruct (Z.ltb_spec 0 z) as [Hz|Hz].
    + rewrite Z.sgn_pos by done. apply Z.ltb_lt. lia.
    + rewrite Z.sgn_neg by lia. apply Z.ltb_ge. lia.
Qed.

(** [a - b > 0] says that [a] is above [b], with the infinities at the two
    ends. *)
Lemma gtZero_sub (a b : JS.Number) :
  JS.gtZero (JS.sub a b) =
    match a, b with
    | JS.Finite x, JS.Finite y => (y <? x)%Z
    | JS.Infinity s, JS.Infinity t => negb s && t
    | JS.Infinity s, JS.Finite _ => negb s
    | JS.Finite _, JS.Infinity t => t
    | _, _ => false
    end.
Proof.
  destruct a as [|s|x], b as [|t|y]; simpl; try done.
  - by destruct s, t.
  - by rewrite negb_involutive.
  - rewrite gtZero_ofInteger.
    destruct (Z.ltb_spec 0 (x - y)), (Z.ltb_spec y x); try done; lia.
Qed.

Lemma gtZero_sub_asym (a b : JS.Number) :
  JS.gtZero (JS.sub a b) = true → JS.gtZero (JS.sub b a) = false.
Proof.
  rewrite !gtZero_sub. destruct a as [|s|x], b as [|t|y]; simpl; try done;
    repeat match goal with b : bool |- _ => destruct b end; simpl; try done.
  intros H%Z.ltb_lt. apply Z.ltb_ge. lia.
Qed.

Lemma gtZero_sub_trans (a b c : JS.Number) :
  JS.isNaN b = false →
  JS.gtZero (JS.sub a b) = false → JS.gtZero (JS.sub b c) = false →
  JS.gtZero (JS.sub a c) = false.
Proof.
  rewrite !gtZero_sub.
  destruct a as [|s|x], b as [|t|y], c as [|u|z]; simpl; try done;
    repeat match goal with b : bool |- _ => destruct b end; simpl; try done.
  intros _ H1%Z.ltb_ge H2%Z.ltb_ge. apply Z.ltb_ge. lia.
Qed.

Section SortOrder.

Context {A : Type}.
Variable comparefn : A -> A -> Result JS.Number.

(** [R x y]: the comparison function does not put [y] before [x]. *)
Variable R : relation A.
Variable valid : A → Prop.
Hypothesis R_above : ∀ x y v, comparefn x y = Ok v → JS.gtZero v = true → R y x.
Hypothesis R_not_above : ∀ x y v, comparefn x y = Ok v → JS.gtZero v = false → R x y.
Hypothesis R_trans : ∀ x y z, valid y → R x y → R y z → R x z.

(** With a comparison function that is consistent on the elements, what
    the sort returns is in order. *)
Lemma sort_StronglySorted (l r : list A) :
  Forall valid l → sort comparefn l = Ok r → StronglySorted R r.
Proof.
  revert r. induction l as [|x xs IH]; intros r Hvalid Hsort; simpl in Hsort.
  - injection Hsort as <-. constructor.
  - apply Forall_cons in Hvalid as [_ Hvalid].
    destruct (sort comparefn xs) as [s|e] eqn:Hs; simpl in Hsort; [|discriminate].
    specialize (IH s Hvalid eq_refl).
    assert (Forall valid s) as Hvalid'.
    { by rewrite (sort_Permutation _ _ _ Hs). }
    apply sortInsert_Ok in Hsort as (pre & post & -> & -> & Hpre & Hpost).
    apply StronglySorted_app in IH as (Hcross & Hsorted_pre & Hsorted_post).
    apply StronglySorted_app_2; [|done|].
    + intros y z Hy [->|Hz]%elem_of_cons; [|by apply Hcross].
      rewrite Forall_forall in Hpre. destruct (Hpre y Hy) as (v & Hv & Hgt). eauto.
    + apply StronglySorted_cons. split; [|done].
      destruct post as [|y0 post]; [constructor|].
      destruct Hpost as (v & Hv & Hgt).
      apply StronglySorted_cons in Hsorted_post as [Hy0 _].
      constructor; [eauto|].
      eapply Forall_impl; [exact Hy0|]. intros z Hz. simpl in Hz.
      apply (R_trans x y0 z); eauto.
      apply Forall_app in Hvalid' as [_ Hvalid'].
      by apply Forall_cons in Hvalid' as [? _].
Qed.

End SortOrder.

(** X15: when every child has a [data-z-index] attribute that parses to an
    integer, the children are afterwards in ascending order of these
    integers: no child comes before one whose number is below its own. *)
Lemma sortChildrenByZIndex_ascending (tree : Dom) (parent : NodeId) :
  childrenAttached tree parent = true →
  forallb (hasIntegerZIndexTag tree) (childrenOf tree parent) = true →
  ∃ tree', sortChildrenByZIndex parent tree = Ok tree'
    ∧ StronglySorted
        (fun a b => JS.gtZero (JS.sub (zIndexKey tree a) (zIndexKey tree b)) = false)
        (childrenOf tree' parent).
Proof.
  intros Hatt Htag. rewrite forallb_forall in Htag.
  assert (forallb (hasZIndexTag tree) (childrenOf tree parent) = true) as Htag'.
  { rewrite forallb_forall. intros c Hc.
    specialize (Htag c Hc). unfold hasIntegerZIndexTag in Htag.
    by apply andb_true_iff in Htag as [? _]. }
  destruct (sort_compareZIndex_returns _ _ Htag') as [sorted Hsort].
  destruct (sortChildrenByZIndex_sorted _ _ _ Hatt Hsort) as (tree' & Hok & Hcs & _).
  exists tree'. split; [done|]. rewrite Hcs.
  apply (sort_StronglySorted (compareZIndex tree) _
           (fun c => JS.isNaN (zIndexKey tree c) = false)) with (childrenOf tree parent);
    [| | | |done].
  - intros x y v (_ & _ & ->)%compareZIndex_Ok. apply gtZero_sub_asym.
  - by intros x y v (_ & _ & ->)%compareZIndex_Ok.
  - intros x y z. apply gtZero_sub_trans.
  - apply Forall_forall. intros c Hc%list_elem_of_In.
    specialize (Htag c Hc). unfold hasIntegerZIndexTag in Htag.
    apply andb_true_iff in Htag as [_ Hnan]. by apply negb_true_iff in Hnan.
Qed.

(** * Further properties of the module *)

(** ** The rules of the classifier, without the error monad *)

Section ClassifierRules.

Variable isInFlow : Node -> CSSStyleDeclaration -> bool.
Variable isInline : CSSStyleDeclaration -> bool.

(** With a view, [establishesStackingContext] returns. *)
Lemma establishesStackingContext_returns (node : Node) (view : Window) :
  ownerView node = Some view → ∃ E, establishesStackingContext node = Ok E.
Proof.
  intros Hview. unfold establishesStackingContext. rewrite Hview.
  destruct (negb (Common.isElement node)); eauto.
Qed.

(** With a view, the rules are tried in order on the booleans they read. *)
Lemma determineStackingLayer_rules (element : Node) (view : Window) (E : bool) :
  ownerView element = Some view →
  establishesStackingContext element = Ok E →
  determineStackingLayer isInFlow isInline element =
    let styles := getComputedStyle view (nodeId element) in
    let zIndex := parsedZIndex styles in
    if from_option JS.ltZero false zIndex && E
    then Ok childStackingContextsWithNegativeStackLevels
    else if isInFlow element styles && negb (isInline styles)
            && negb (Common.isPositioned styles)
    then Ok inFlowNonInlineNonPositionedDescendants
    else if negb (Common.isPositioned styles)
            && negb (Style.float styles =? "none")%string
    then Ok nonPositionedFloats
    else if isInFlow element styles && isInline styles
            && negb (Common.isPositioned styles)
    then Ok inFlowInlineLevelNonPositionedDescendants
    else if from_option JS.eqZero false zIndex && (Common.isPositioned styles || E)
    then Ok childStackingContextsWithStackLevelZeroAndPositionedDescendantsWithStackLevelZero
    else if from_option JS.gtZero false zIndex && E
    then Ok childStackingContextsWithPositiveStackLevels
    else Throw (JsError "Did not find appropiate stacking layer").
Proof.
  intros Hview HE. apply ownerView_Some in Hview as (document & Hdoc & Hview).
  unfold determineStackingLayer. rewrite Hdoc, Hview, HE. cbv zeta.
  destruct (from_option JS.ltZero false _), (from_option JS.eqZero false _),
    (from_option JS.gtZero false _), E, (isInFlow _ _), (isInline _),
    (Common.isPositioned _), (Style.float _ =? "none")%string; reflexivity.
Qed.

End ClassifierRules.

(** The three tests on a number exclude one another, and one of them holds
    unless the number is not-a-number. *)
Lemma Number_sign (z : JS.Number) :
  JS.isNaN z = false →
  (JS.ltZero z = true ∧ JS.eqZero z = false ∧ JS.gtZero z = false)
  ∨ (JS.ltZero z = false ∧ JS.eqZero z = true ∧ JS.gtZero z = false)
  ∨ (JS.ltZero z = false ∧ JS.eqZero z = false ∧ JS.gtZero z = true).
Proof.
  destruct z as [|[]|z]; simpl; intros H; try discriminate; auto.
  destruct (Z.ltb_spec z 0), (Z.eqb_spec z 0), (Z.ltb_spec 0 z); auto; lia.
Qed.

(** X1: a positioned element whose z-index is not auto and parses to an
    integer is classified by the sign of that integer alone: the layer of
    negative stack levels, of stack level zero, or of positive stack
    levels. *)
Theorem positioned_layer_by_sign
    (isInFlow : Node -> CSSStyleDeclaration -> bool)
    (isInline : CSSStyleDeclaration -> bool) (element : Node) (view : Window) :
  ownerView element = Some view →
  Common.isElement element = true →
  Common.isPositioned (getComputedStyle view (nodeId element)) = true →
  Style.zIndex (getComputedStyle view (nodeId element)) ≠ "auto" →
  JS.isNaN (JS.parseInt (Style.zIndex (getComputedStyle view (nodeId element)))) = false →
  determineStackingLayer isInFlow isInline element =
    Ok (if JS.ltZero (JS.parseInt (Style.zIndex (getComputedStyle view (nodeId element))))
        then childStackingContextsWithNegativeStackLevels
        else if JS.eqZero (JS.parseInt (Style.zIndex (getComputedStyle view (nodeId element))))
        then childStackingContextsWithStackLevelZeroAndPositionedDescendantsWithStackLevelZero
        else childStackingContextsWithPositiveStackLevels).
Proof.
  intros Hview Helement Hpos Hz Hnan.
  rewrite (determineStackingLayer_rules isInFlow isInline element view true Hview).
  - cbv zeta. unfold parsedZIndex. apply String.eqb_neq in Hz. rewrite Hz, Hpos. simpl.
    rewrite !andb_false_r, !andb_true_r.
    destruct (Number_sign _ Hnan) as [(H1 & H2 & H3)|[(H1 & H2 & H3)|(H1 & H2 & H3)]];
      rewrite ?H1, ?H2, ?H3; reflexivity.
  - rewrite (establishesStackingContext_element element view) by done.
    by rewrite positioned_with_zIndex_establishes.
Qed.

Lemma positioned_layer_by_sign_witness :
  determineStackingLayer Common.isInFlow Common.isInline (stackedElement 1)
    = Ok childStackingContextsWithNegativeStackLevels.
Proof.
  apply (positioned_layer_by_sign Common.isInFlow Common.isInline
           (stackedElement 1) stackedWindow); try reflexivity.
  discriminate.
Defined.

(** X2: an element that is classified into one of the three layers of
    non-positioned descendants is not positioned. *)
Theorem flow_layers_not_positioned
    (isInFlow : Node -> CSSStyleDeclaration -> bool)
    (isInline : CSSStyleDeclaration -> bool) (element : Node) (view : Window)
    (layer : LayerName) :
  ownerView element = Some view →
  determineStackingLayer isInFlow isInline element = Ok layer →
  layer = inFlowNonInlineNonPositionedDescendants
  ∨ layer = nonPositionedFloats
  ∨ layer = inFlowInlineLevelNonPositionedDescendants →
  Common.isPositioned (getComputedStyle view (nodeId element)) = false.
Proof.
  intros Hview Hlayer Hin.
  destruct (establishesStackingContext_returns element view Hview) as [E HE].
  rewrite (determineStackingLayer_rules isInFlow isInline element view E Hview HE) in Hlayer.
  cbv zeta in Hlayer.
  destruct (Common.isPositioned _); [|done].
  rewrite !andb_false_r in Hlayer. simpl in Hlayer.
  repeat match type of Hlayer with
         | context [if ?b then _ else _] => destruct b
         end; try discriminate; injection Hlayer as <-;
    destruct Hin as [H|[H|H]]; discriminate H.
Qed.

Lemma flow_layers_not_positioned_witness :
  Common.isPositioned (getComputedStyle stackedWindow 4) = false.
Proof.
  apply (flow_layers_not_positioned Common.isInFlow Common.isInline (stackedElement 4)
           stackedWindow inFlowInlineLevelNonPositionedDescendants);
    [reflexivity | reflexivity | auto].
Defined.

(** A test on the parsed z-index that holds was made on a number: the
    z-index is not the keyword, and it is not the empty string either. *)
Lemma parsedZIndex_test (f : JS.Number → bool) (styles : CSSStyleDeclaration) :
  f JS.NaN = false →
  from_option f false (parsedZIndex styles) = true →
  Style.zIndex styles ≠ "auto"
  ∧ JS.truthy (Style.zIndex styles) = true
  ∧ f (JS.parseInt (Style.zIndex styles)) = true.
Proof.
  intros HNaN. unfold parsedZIndex.
  destruct (Style.zIndex styles =? "auto")%string eqn:Hauto; simpl; [discriminate|].
  intros Hf. apply String.eqb_neq in Hauto. repeat split; [done| |done].
  destruct (Style.zIndex styles); [|done].
  change (JS.parseInt "") with JS.NaN in Hf. congruence.
Qed.

(** X3: an element that is classified into the layer of negative or of
    positive stack levels, the two layers that are sorted, establishes a
    stacking context, and its z-index is a string that is not empty and
    parses to a negative, respectively positive, number.  In the layer of
    stack level zero the z-index parses to zero. *)
Theorem zIndex_layers_have_sort_key
    (isInFlow : Node -> CSSStyleDeclaration -> bool)
    (isInline : CSSStyleDeclaration -> bool) (element : Node) (view : Window)
    (layer : LayerName) :
  ownerView element = Some view →
  determineStackingLayer isInFlow isInline element = Ok layer →
  let zIndex := Style.zIndex (getComputedStyle view (nodeId element)) in
  (layer = childStackingContextsWithNegativeStackLevels →
     establishesStackingContext element = Ok true
     ∧ JS.truthy zIndex = true ∧ JS.ltZero (JS.parseInt zIndex) = true)
  ∧ (layer = childStackingContextsWithPositiveStackLevels →
     establishesStackingContext element = Ok true
     ∧ JS.truthy zIndex = true ∧ JS.gtZero (JS.parseInt zIndex) = true)
  ∧ (layer = childStackingContextsWithStackLevelZeroAndPositionedDescendantsWithStackLevelZero →
     JS.truthy zIndex = true ∧ JS.eqZero (JS.parseInt zIndex) = true).
Proof.
  intros Hview Hlayer zIndex.
  destruct (establishesStackingContext_returns element view Hview) as [E HE].
  rewrite (determineStackingLayer_rules isInFlow isInline element view E Hview HE) in Hlayer.
  cbv zeta in Hlayer. rewrite HE.
  repeat match type of Hlayer with
         | context [if ?b then _ else _] => destruct b eqn:?
         end; try discriminate; injection Hlayer as <-;
    (split; [|split]); intros [=];
    repeat match goal with
           | H : _ && _ = true |- _ => apply andb_true_iff in H as [? ?]
           end; subst;
    match goal with
    | H : from_option _ false (parsedZIndex _) = true |- _ =>
        apply parsedZIndex_test in H as (_ & ? & ?); [|reflexivity]
    end; auto.
Qed.

Lemma zIndex_layers_have_sort_key_witness :
  establishesStackingContext (stackedElement 3) = Ok true
  ∧ JS.truthy (Style.zIndex (getComputedStyle stackedWindow 3)) = true
  ∧ JS.gtZero (JS.parseInt (Style.zIndex (getComputedStyle stackedWindow 3))) = true.
Proof.
  apply (zIndex_layers_have_sort_key Common.isInFlow Common.isInline (stackedElement 3)
           stackedWindow childStackingContextsWithPositiveStackLevels);
    reflexivity.
Defined.

(** X4: an element that is in flow and not positioned is always classified:
    into the layer of negative stack levels if it establishes a stacking
    context with a negative z-index; else into the in-flow layer of block
    level if it is not inline level; else, being inline level, into the
    layer of floats if its float is not none, and into the in-flow layer of
    inline level otherwise. *)
Theorem in_flow_not_positioned_classified
    (isInFlow : Node -> CSSStyleDeclaration -> bool)
    (isInline : CSSStyleDeclaration -> bool) (element : Node) (view : Window) (E : bool) :
  ownerView element = Some view →
  establishesStackingContext element = Ok E →
  Common.isPositioned (getComputedStyle view (nodeId element)) = false →
  isInFlow element (getComputedStyle view (nodeId element)) = true →
  determineStackingLayer isInFlow isInline element =
    Ok (if from_option JS.ltZero false (parsedZIndex (getComputedStyle view (nodeId element)))
           && E
        then childStackingContextsWithNegativeStackLevels
        else if negb (isInline (getComputedStyle view (nodeId element)))
        then inFlowNonInlineNonPositionedDescendants
        else if negb (Style.float (getComputedStyle view (nodeId element)) =? "none")%string
        then nonPositionedFloats
        else inFlowInlineLevelNonPositionedDescendants).
Proof.
  intros Hview HE Hpos Hflow.
  rewrite (determineStackingLayer_rules isInFlow isInline element view E Hview HE).
  cbv zeta. rewrite Hpos, Hflow.
  destruct (isInline (getComputedStyle view (nodeId element))),
    (from_option JS.ltZero false (parsedZIndex (getComputedStyle view (nodeId element)))),
    E, (Style.float (getComputedStyle view (nodeId element)) =? "none")%string;
    reflexivity.
Qed.

Lemma in_flow_not_positioned_classified_witness :
  determineStackingLayer Common.isInFlow Common.isInline (stackedElement 4)
    = Ok inFlowInlineLevelNonPositionedDescendants.
Proof.
  apply (in_flow_not_positioned_classified Common.isInFlow Common.isInline
           (stackedElement 4) stackedWindow false); reflexivity.
Defined.

(** X5: a float that is not positioned, and that the first in-flow rule
    does not take, goes to the layer of floats whether it is inline level or
    not, unless it establishes a stacking context with a negative
    z-index. *)
Theorem float_not_positioned_classified
    (isInFlow : Node -> CSSStyleDeclaration -> bool)
    (isInline : CSSStyleDeclaration -> bool) (element : Node) (view : Window) (E : bool) :
  ownerView element = Some view →
  establishesStackingContext element = Ok E →
  Common.isPositioned (getComputedStyle view (nodeId element)) = false →
  Style.float (getComputedStyle view (nodeId element)) ≠ "none" →
  isInFlow element (getComputedStyle view (nodeId element))
    && negb (isInline (getComputedStyle view (nodeId element))) = false →
  determineStackingLayer isInFlow isInline element =
    Ok (if from_option JS.ltZero false (parsedZIndex (getComputedStyle view (nodeId element)))
           && E
        then childStackingContextsWithNegativeStackLevels
        else nonPositionedFloats).
Proof.
  intros Hview HE Hpos Hfloat Hflow.
  rewrite (determineStackingLayer_rules isInFlow isInline element view E Hview HE).
  cbv zeta. apply String.eqb_neq in Hfloat. rewrite Hpos, Hfloat, Hflow.
  by destruct
    (from_option JS.ltZero false (parsedZIndex (getComputedStyle view (nodeId element)))),
    E.
Qed.

Lemma float_not_positioned_classified_witness :
  determineStackingLayer Common.isInFlow Common.isInline (stackedElement 5)
    = Ok nonPositionedFloats.
Proof.
  apply (float_not_positioned_classified Common.isInFlow Common.isInline
           (stackedElement 5) stackedWindow false); try reflexivity.
  discriminate.
Defined.

(** X6: [determineStackingLayer] throws one of three errors and no other:
    a type error when the element has no owner document, its own error when
    the document has no default view, and the classification error when
    there is a view; the error of [establishesStackingContext] never comes
    out of it. *)
Theorem determineStackingLayer_errors
    (isInFlow : Node -> CSSStyleDeclaration -> bool)
    (isInline : CSSStyleDeclaration -> bool) (element : Node) (e : Error) :
  determineStackingLayer isInFlow isInline element = Throw e →
  (ownerDocument element = None
   ∧ e = TypeError "Cannot read properties of null (reading 'defaultView')")
  ∨ (ownerDocument element ≠ None ∧ ownerView element = None
     ∧ e = JsError "Element's ownerDocument has no defaultView")
  ∨ (ownerView element ≠ None
     ∧ e = JsError "Did not find appropiate stacking layer").
Proof.
  intros Hthrow. destruct (ownerView element) as [view|] eqn:Hview.
  - right. right. split; [done|].
    destruct (establishesStackingContext_returns element view Hview) as [E HE].
    rewrite (determineStackingLayer_rules isInFlow isInline element view E Hview HE)
      in Hthrow.
    cbv zeta in Hthrow.
    repeat match type of Hthrow with
           | context [if ?b then _ else _] => destruct b
           end; congruence.
  - unfold determineStackingLayer in Hthrow. unfold ownerView in Hview.
    destruct (ownerDocument element) as [document|]; simpl in Hview.
    + right. left. rewrite Hview in Hthrow. split; [done|]. split; congruence.
    + left. split; congruence.
Qed.

Lemma determineStackingLayer_errors_witness :
  (ownerDocument detachedElement = None
   ∧ JsError "Element's ownerDocument has no defaultView"
     = TypeError "Cannot read properties of null (reading 'defaultView')")
  ∨ (ownerDocument detachedElement ≠ None ∧ ownerView detachedElement = None
     ∧ JsError "Element's ownerDocument has no defaultView"
       = JsError "Element's ownerDocument has no defaultView")
  ∨ (ownerView detachedElement ≠ None
     ∧ JsError "Element's ownerDocument has no defaultView"
       = JsError "Did not find appropiate stacking layer").
Proof.
  apply (determineStackingLayer_errors Common.isInFlow Common.isInline detachedElement).
  reflexivity.
Defined.

(** ** Further properties of the stacking predicate *)

(** X7: every positioned element whose z-index is not auto establishes a
    stacking context, whatever its other styles and its parent are. *)
Theorem positioned_with_zIndex_establishes_context (element : Node) (view : Window) :
  ownerView element = Some view →
  Common.isElement element = true →
  Common.isPositioned (getComputedStyle view (nodeId element)) = true →
  Style.zIndex (getComputedStyle view (nodeId element)) ≠ "auto" →
  establishesStackingContext element = Ok true.
Proof.
  intros Hview Helement Hpos Hz.
  rewrite (establishesStackingContext_element element view) by done.
  by rewrite positioned_with_zIndex_establishes.
Qed.

Lemma positioned_with_zIndex_establishes_context_witness :
  establishesStackingContext (stackedElement 2) = Ok true.
Proof.
  apply (positioned_with_zIndex_establishes_context (stackedElement 2) stackedWindow);
    try reflexivity.
  discriminate.
Defined.

(** X8: an element whose opacity does not read as the number 1 establishes
    a stacking context, whatever its position and z-index are; this
    includes an opacity that does not read as a number at all. *)
Theorem opacity_not_one_establishes_context (element : Node) (view : Window) :
  ownerView element = Some view →
  Common.isElement element = true →
  JS.isOne (JS.parseFloat (Style.opacity (getComputedStyle view (nodeId element)))) = false →
  establishesStackingContext element = Ok true.
Proof.
  intros Hview Helement Hopacity.
  rewrite (establishesStackingContext_element element view) by done.
  unfold establishingStyles. rewrite Hopacity. simpl negb.
  by rewrite !orb_true_r.
Qed.

Lemma opacity_not_one_establishes_context_witness :
  JS.parseFloat (Style.opacity (getComputedStyle stackedWindow 8)) = JS.DNaN
  ∧ establishesStackingContext (stackedElement 8) = Ok true.
Proof.
  split; [reflexivity|].
  apply (opacity_not_one_establishes_context (stackedElement 8) stackedWindow);
    reflexivity.
Defined.

(** X9: when no other rule applies, an element establishes a stacking
    context exactly when one of the comma separated items of its will-change
    list, white space around it removed, is spelled like a member of
    [stackingContextEstablishingProperties]; the empty list has no such
    item. *)
Theorem willChange_alone_decides (element : Node) (view : Window) (E : bool) :
  ownerView element = Some view →
  Common.isElement element = true →
  noOtherTrigger (getComputedStyle view (nodeId element)) →
  establishesStackingContext element = Ok E →
  E = true ↔
  ∃ property,
    In property (JS.split "," (Style.willChange (getComputedStyle view (nodeId element))))
    ∧ JS.trim property ∈ stackingContextEstablishingProperties.
Proof.
  intros Hview Helement Hoff HE.
  rewrite (establishesStackingContext_element element view) in HE by done.
  injection HE as <-. split.
  - revert Hoff. unfold noOtherTrigger, establishingStyles.
    intros (-> & Hfixed%String.eqb_neq & Hsticky%String.eqb_neq & -> & -> & -> & -> & ->
            & -> & -> & -> & -> & Hiso%String.eqb_neq & Htouch%String.eqb_neq
            & Hl%String.eqb_neq & Hp%String.eqb_neq & Hs%String.eqb_neq & Hc%String.eqb_neq).
    rewrite Hfixed, Hsticky, Hiso, Htouch, Hl, Hp, Hs, Hc. simpl.
    rewrite !andb_false_r. simpl.
    destruct (_ <$> parentElement element) as [parentStyles|]; simpl;
      rewrite ?andb_false_r; simpl;
      intros [_ (property & Hin & Hmem%bool_decide_eq_true)%existsb_exists]%andb_true_iff;
      eauto.
  - intros (property & Hin & Hmem). by eapply establishingStyles_willChange.
Qed.

Lemma willChange_alone_decides_witness :
  true = true ↔
  ∃ property,
    In property (JS.split "," (Style.willChange (getComputedStyle stackedWindow 7)))
    ∧ JS.trim property ∈ stackingContextEstablishingProperties.
Proof.
  apply (willChange_alone_decides (stackedElement 7) stackedWindow true);
    [reflexivity | reflexivity | | vm_compute; reflexivity].
  repeat split; try reflexivity; discriminate.
Defined.

(** X10: the parent of an element counts only through the z-index of the
    element.  With z-index auto the answer is the same under any parent, or
    under none; with another z-index a parent whose display is flex or grid
    makes the element establish a stacking context, positioned or not. *)
Theorem parent_counts_with_zIndex_only (element : Node) (view : Window) :
  ownerView element = Some view →
  Common.isElement element = true →
  (Style.zIndex (getComputedStyle view (nodeId element)) = "auto" →
   ∀ parent, establishesStackingContext (withParent parent element)
             = establishesStackingContext element)
  ∧ (Style.zIndex (getComputedStyle view (nodeId element)) ≠ "auto" →
     ∀ parent, parentElement element = Some parent →
       Style.display (getComputedStyle view (nodeId parent)) = "flex"
       ∨ Style.display (getComputedStyle view (nodeId parent)) = "grid" →
       establishesStackingContext element = Ok true).
Proof.
  intros Hview Helement. split.
  - intros Hz parent.
    rewrite (establishesStackingContext_element element view) by done.
    rewrite (establishesStackingContext_element (withParent parent element) view) by done.
    simpl. unfold establishingStyles. rewrite Hz. simpl.
    destruct (_ <$> parent), (_ <$> parentElement element); simpl;
      by rewrite ?andb_false_r.
  - intros Hz%String.eqb_neq parent Hparent Hdisplay.
    rewrite (establishesStackingContext_element element view) by done.
    rewrite Hparent. simpl. unfold establishingStyles. rewrite Hz.
    destruct Hdisplay as [-> | ->]; simpl; by rewrite ?orb_true_r.
Qed.

Lemma parent_counts_with_zIndex_only_witness :
  establishesStackingContext (stackedElement 9) = Ok true.
Proof.
  apply (proj2 (parent_counts_with_zIndex_only (stackedElement 9) stackedWindow
                  eq_refl eq_refl)) with stackedBody.
  - discriminate.
  - reflexivity.
  - left. reflexivity.
Defined.

(** ** Further properties of [createStackingLayers] *)

(** The seven calls, with the invariant they keep. *)
Lemma createStackingLayers_created
    (svgNamespace : string) (tree : Dom) (container : NodeId) (ce : SVGElement) :
  tree !! container = Some ce →
  ∃ layers tree',
    createStackingLayers svgNamespace container tree = (layers, tree')
    ∧ LayersCreated svgNamespace tree container ce (layerIds layers) layerNames tree'.
Proof.
  intros Hce. unfold createStackingLayers.
  assert (LayersCreated svgNamespace tree container ce [] []
            (alter (setDataset "stackingContext" "true") container tree)) as Hinv.
  { rewrite (alter_alt_Some _ _ _ _ Hce). split.
    - rewrite lookup_insert_eq, app_nil_r. by destruct ce.
    - constructor.
    - constructor.
    - constructor.
    - intros i Hi _. by rewrite lookup_insert_ne. }
  do 7 create_layer Hce Hinv.
  eexists _, _. split; [reflexivity|]. exact Hinv.
Qed.

Lemma childrenAttached_intro (tree : Dom) (parent : NodeId) :
  NoDup (childrenOf tree parent) →
  (∀ c, c ∈ childrenOf tree parent →
        c ≠ parent ∧ tree !! c ≫= parentNode = Some parent) →
  childrenAttached tree parent = true.
Proof.
  intros Hnd Hatt. unfold childrenAttached.
  rewrite !andb_true_iff, !bool_decide_eq_true, forallb_forall.
  repeat split; [done| |].
  - intros Hin. by destruct (Hatt parent Hin).
  - intros c Hc%list_elem_of_In. apply bool_decide_eq_true. by apply Hatt.
Qed.

(** X11: [createStackingLayers] touches nothing but the container and the
    seven elements it creates: every other element of the tree is as it was,
    and the container keeps its name, its namespace, its parent and every
    entry of its dataset but [stackingContext]. *)
Theorem createStackingLayers_frame
    (svgNamespace : string) (tree : Dom) (container : NodeId) (ce : SVGElement) :
  tree !! container = Some ce →
  ∃ layers tree' ce',
    createStackingLayers svgNamespace container tree = (layers, tree')
    ∧ (∀ i e, i ≠ container → tree !! i = Some e → tree' !! i = Some e)
    ∧ tree' !! container = Some ce'
    ∧ namespaceURI ce' = namespaceURI ce
    ∧ localName ce' = localName ce
    ∧ parentNode ce' = parentNode ce
    ∧ ∀ key, key ≠ "stackingContext" → dataset ce' !! key = dataset ce !! key.
Proof.
  intros Hce.
  destruct (createStackingLayers_created svgNamespace tree container ce Hce)
    as (layers & tree' & Hcreate & [Hcont _ Hfresh _ Hothers]).
  eexists layers, tree', _. split; [done|]. split; [|split; [exact Hcont|]].
  - intros i e Hi He. rewrite Hothers; [done|done|].
    intros Hin. rewrite Forall_forall in Hfresh. specialize (Hfresh i Hin). congruence.
  - repeat split. intros key Hkey. simpl. by rewrite lookup_insert_ne.
Qed.

Lemma createStackingLayers_frame_witness :
  ∃ layers tree' ce',
    createStackingLayers sampleNamespace 2 sampleNegative = (layers, tree')
    ∧ (∀ i e, i ≠ 2 → sampleNegative !! i = Some e → tree' !! i = Some e)
    ∧ tree' !! 2 = Some ce'
    ∧ namespaceURI ce' = namespaceURI sampleNegativeLayer
    ∧ localName ce' = localName sampleNegativeLayer
    ∧ parentNode ce' = parentNode sampleNegativeLayer
    ∧ ∀ key, key ≠ "stackingContext" →
        dataset ce' !! key = dataset sampleNegativeLayer !! key.
Proof.
  apply (createStackingLayers_frame sampleNamespace sampleNegative 2 sampleNegativeLayer).
  vm_compute. reflexivity.
Defined.

(** X12: [createStackingLayers] keeps the invariant of the tree around the
    container: when the children of the container were distinct nodes
    attached to it, they still are with the seven layers behind them. *)
Theorem createStackingLayers_keeps_children_attached
    (svgNamespace : string) (tree : Dom) (container : NodeId) (ce : SVGElement) :
  tree !! container = Some ce →
  childrenAttached tree container = true →
  childrenAttached (snd (createStackingLayers svgNamespace container tree)) container
    = true.
Proof.
  intros Hce [Hnd Hatt]%childrenAttached_spec.
  destruct (createStackingLayers_created svgNamespace tree container ce Hce)
    as (layers & tree' & -> & [Hcont Hlayers Hfresh Hnd' Hothers]).
  simpl. rewrite Forall_forall in Hfresh.
  assert (childrenOf tree container = children ce) as Hcs
    by (unfold childrenOf; by rewrite Hce).
  assert (childrenOf tree' container = children ce ++ layerIds layers) as Hcs'
    by (unfold childrenOf; by rewrite Hcont).
  rewrite Hcs in *.
  assert (∀ c, c ∈ children ce → c ∉ layerIds layers) as Hold.
  { intros c Hc Hin. destruct (Hatt c Hc) as [_ Hparent].
    rewrite (Hfresh c Hin) in Hparent. discriminate. }
  apply childrenAttached_intro; rewrite Hcs'.
  - apply NoDup_app. repeat split; [done| |done]. intros c Hc. by apply Hold.
  - intros c [Hc|Hc]%elem_of_app.
    + destruct (Hatt c Hc) as [Hne Hparent]. split; [done|].
      rewrite Hothers; [done|done|by apply Hold].
    + split.
      * intros ->. specialize (Hfresh container Hc). congruence.
      * apply list_elem_of_lookup in Hc as [k Hk].
        destruct (Forall2_lookup_l _ _ _ _ _ Hlayers Hk) as (name & _ & ->). done.
Qed.

Lemma createStackingLayers_keeps_children_attached_witness :
  childrenAttached (snd (createStackingLayers sampleNamespace 2 sampleNegative)) 2 = true.
Proof.
  apply (createStackingLayers_keeps_children_attached sampleNamespace sampleNegative 2
           sampleNegativeLayer); vm_compute; reflexivity.
Defined.

(** X13: the finalize step on a stacking context that has just been
    created returns and changes nothing: its two sorted layers are empty. *)
Theorem createStackingLayers_then_sort
    (svgNamespace : string) (tree : Dom) (container : NodeId) (ce : SVGElement) :
  tree !! container = Some ce →
  sortStackingLayerChildren
    (fst (createStackingLayers svgNamespace container tree))
    (snd (createStackingLayers svgNamespace container tree))
  = Ok (snd (createStackingLayers svgNamespace container tree)).
Proof.
  intros Hce.
  destruct (createStackingLayers_created svgNamespace tree container ce Hce)
    as (layers & tree' & -> & [_ Hlayers _ _ _]).
  simpl. unfold layerIds, layerNames in Hlayers.
  repeat match goal with
         | H : Forall2 _ (_ :: _) (_ :: _) |- _ =>
             apply Forall2_cons in H as [? H]
         end.
  unfold sortStackingLayerChildren, sortChildrenByZIndex, childrenOf.
  repeat match goal with H : tree' !! _ = Some _ |- _ => rewrite H; clear H end.
  simpl. unfold childrenOf.
  repeat match goal with H : tree' !! _ = Some _ |- _ => rewrite H; clear H end.
  reflexivity.
Qed.

Lemma createStackingLayers_then_sort_witness :
  sortStackingLayerChildren
    (fst (createStackingLayers sampleNamespace 0 sampleRoot))
    (snd (createStackingLayers sampleNamespace 0 sampleRoot))
  = Ok (snd (createStackingLayers sampleNamespace 0 sampleRoot)).
Proof.
  apply (createStackingLayers_then_sort sampleNamespace sampleRoot 0
           (mkSVGElement sampleNamespace "svg" ∅ [] None)).
  reflexivity.
Defined.

(** ** Further properties of the sort *)

Section SortFixed.

Context {A : Type}.
Variable comparefn : A -> A -> Result JS.Number.

(** A list in which no element is put behind its successor comes out of
    the sort as it went in. *)
Lemma sort_Sorted_fixed (l : list A) :
  Sorted (fun x y => ∃ v, comparefn x y = Ok v ∧ JS.gtZero v = false) l →
  sort comparefn l = Ok l.
Proof.
  induction 1 as [|x xs _ IH Hhd]; [done|].
  simpl. rewrite IH. simpl.
  destruct Hhd as [|y ys (v & Hv & Hgt)]; [done|].
  simpl. rewrite Hv. simpl. by rewrite Hgt.
Qed.

(** The sort reads the comparison function on the elements only. *)
Lemma sort_ext (comparefn' : A -> A -> Result JS.Number) (l : list A) :
  (∀ x y, comparefn' x y = comparefn x y) →
  sort comparefn' l = sort comparefn l.
Proof.
  intros Hext. induction l as [|x xs IH]; [done|].
  simpl. rewrite IH. destruct (sort comparefn xs) as [s|e]; [|done]. simpl.
  clear IH. induction s as [|y ys IHs]; [done|].
  simpl. rewrite Hext. destruct (comparefn x y) as [v|]; [|done]. simpl.
  destruct (JS.gtZero v); [|done]. by rewrite IHs.
Qed.

End SortFixed.

(** An element is known by its children and by what remains without
    them. *)
Lemma element_eq (a b : option SVGElement) :
  setChildren [] <$> a = setChildren [] <$> b →
  from_option children [] a = from_option children [] b →
  a = b.
Proof.
  destruct a as [[]|], b as [[]|]; simpl; intros; by simplify_eq/=.
Qed.

(** What a call of [sortChildrenByZIndex] that returns has done. *)
Lemma sortChildrenByZIndex_Ok (tree tree' : Dom) (parent : NodeId) :
  childrenAttached tree parent = true →
  sortChildrenByZIndex parent tree = Ok tree' →
  ∃ sorted,
    sort (compareZIndex tree) (childrenOf tree parent) = Ok sorted
    ∧ childrenOf tree' parent = sorted
    ∧ (∀ other, other ≠ parent → tree' !! other = tree !! other)
    ∧ (∀ c, setChildren [] <$> tree' !! c = setChildren [] <$> tree !! c).
Proof.
  intros Hatt Hok.
  destruct (sort (compareZIndex tree) (childrenOf tree parent)) as [sorted|e] eqn:Hsort.
  - destruct (sortChildrenByZIndex_sorted _ _ _ Hatt Hsort) as (tree1 & Hok1 & Hrest).
    rewrite Hok in Hok1. injection Hok1 as <-. eauto.
  - unfold sortChildrenByZIndex in Hok. rewrite Hsort in Hok. discriminate.
Qed.

(** The invariant around the parent does not depend on the order of its
    children. *)
Lemma childrenAttached_reordered (tree tree' : Dom) (parent : NodeId) :
  childrenAttached tree parent = true →
  childrenOf tree' parent ≡ₚ childrenOf tree parent →
  (∀ c, setChildren [] <$> tree' !! c = setChildren [] <$> tree !! c) →
  childrenAttached tree' parent = true.
Proof.
  intros [Hnd Hatt]%childrenAttached_spec Hperm Hsame.
  apply childrenAttached_intro.
  - by rewrite Hperm.
  - intros c Hc. rewrite Hperm in Hc. destruct (Hatt c Hc) as [Hne Hparent].
    split; [done|]. by rewrite (same_parentNode tree tree').
Qed.

(** When the sort leaves the children in their order, the tree is not
    changed at all. *)
Lemma sortChildrenByZIndex_fixed (tree : Dom) (parent : NodeId) :
  childrenAttached tree parent = true →
  sort (compareZIndex tree) (childrenOf tree parent) = Ok (childrenOf tree parent) →
  sortChildrenByZIndex parent tree = Ok tree.
Proof.
  intros Hatt Hsort.
  destruct (sortChildrenByZIndex_sorted _ _ _ Hatt Hsort)
    as (tree' & -> & Hcs & Hothers & Hsame).
  f_equal. apply map_eq. intros i.
  destruct (decide (i = parent)) as [->|Hne]; [|by apply Hothers].
  by apply element_eq.
Qed.

(** X14: [sortChildrenByZIndex] changes the order of the children of the
    parent and nothing else: every other element is as it was, no dataset
    and no parent is changed, the children are a permutation of what they
    were, and they are still distinct nodes attached to the parent. *)
Theorem sortChildrenByZIndex_frame (tree tree' : Dom) (parent : NodeId) :
  childrenAttached tree parent = true →
  sortChildrenByZIndex parent tree = Ok tree' →
  (∀ other, other ≠ parent → tree' !! other = tree !! other)
  ∧ (∀ c key, datasetOf tree' c key = datasetOf tree c key)
  ∧ (∀ c, tree' !! c ≫= parentNode = tree !! c ≫= parentNode)
  ∧ childrenOf tree' parent ≡ₚ childrenOf tree parent
  ∧ childrenAttached tree' parent = true.
Proof.
  intros Hatt Hok.
  destruct (sortChildrenByZIndex_Ok _ _ _ Hatt Hok)
    as (sorted & Hsort & Hcs & Hothers & Hsame).
  assert (childrenOf tree' parent ≡ₚ childrenOf tree parent) as Hperm.
  { rewrite Hcs. by eapply sort_Permutation. }
  repeat split; [done| | |done|].
  - intros c key. by apply same_datasetOf.
  - intros c. by apply same_parentNode.
  - by apply childrenAttached_reordered with tree.
Qed.

Lemma sortChildrenByZIndex_frame_witness :
  (∀ other, other ≠ 2 → sortedNegative !! other = sampleNegative !! other)
  ∧ (∀ c key, datasetOf sortedNegative c key = datasetOf sampleNegative c key)
  ∧ (∀ c, sortedNegative !! c ≫= parentNode = sampleNegative !! c ≫= parentNode)
  ∧ childrenOf sortedNegative 2 ≡ₚ childrenOf sampleNegative 2
  ∧ childrenAttached sortedNegative 2 = true.
Proof.
  apply (sortChildrenByZIndex_frame sampleNegative sortedNegative 2);
    vm_compute; reflexivity.
Defined.

Lemma sortChildrenByZIndex_ascending_witness :
  ∃ tree', sortChildrenByZIndex 7 sampleTies = Ok tree'
    ∧ StronglySorted
        (fun a b =>
           JS.gtZero (JS.sub (zIndexKey sampleTies a) (zIndexKey sampleTies b)) = false)
        (childrenOf tree' 7).
Proof.
  apply (sortChildrenByZIndex_ascending sampleTies 7); vm_compute; reflexivity.
Defined.

Lemma forallb_hasIntegerZIndexTag (tree : Dom) (cs : list NodeId) :
  forallb (hasIntegerZIndexTag tree) cs = true →
  ∀ c, c ∈ cs → hasZIndexTag tree c = true ∧ JS.isNaN (zIndexKey tree c) = false.
Proof.
  rewrite forallb_forall. intros Htag c Hc%list_elem_of_In.
  specialize (Htag c Hc). unfold hasIntegerZIndexTag in Htag.
  apply andb_true_iff in Htag as [? Hnan]. by apply negb_true_iff in Hnan.
Qed.

(** With integer tags, the sorted children are in an order that the
    comparison function itself accepts, pair by pair. *)
Lemma sort_compareZIndex_StronglySorted (tree : Dom) (cs sorted : list NodeId) :
  forallb (hasIntegerZIndexTag tree) cs = true →
  sort (compareZIndex tree) cs = Ok sorted →
  StronglySorted
    (fun a b => ∃ v, compareZIndex tree a b = Ok v ∧ JS.gtZero v = false) sorted.
Proof.
  intros Htag Hsort.
  apply (sort_StronglySorted (compareZIndex tree) _
           (fun c => JS.isNaN (zIndexKey tree c) = false)) with cs; [| | | |done].
  - intros x y v Hv Hgt. apply compareZIndex_Ok in Hv as (Hx & Hy & ->).
    rewrite compareZIndex_tagged by done. eauto using gtZero_sub_asym.
  - eauto.
  - intros x y z Hy (v & Hv & Hgt) (w & Hw & Hgt').
    apply compareZIndex_Ok in Hv as (Hx & _ & ->).
    apply compareZIndex_Ok in Hw as (_ & Hz & ->).
    rewrite compareZIndex_tagged by done. eauto using gtZero_sub_trans.
  - apply Forall_forall. intros c Hc.
    by destruct (forallb_hasIntegerZIndexTag _ _ Htag c Hc).
Qed.

Lemma compareZIndex_same (tree tree' : Dom) (a b : NodeId) :
  (∀ c, setChildren [] <$> tree' !! c = setChildren [] <$> tree !! c) →
  compareZIndex tree' a b = compareZIndex tree a b.
Proof.
  intros Hsame. unfold compareZIndex. by rewrite !(same_datasetOf tree tree').
Qed.

(** X16: with integer tags the sort is idempotent: a second call of
    [sortChildrenByZIndex] on the same parent returns the tree that the
    first one left. *)
Theorem sortChildrenByZIndex_idempotent (tree : Dom) (parent : NodeId) :
  childrenAttached tree parent = true →
  forallb (hasIntegerZIndexTag tree) (childrenOf tree parent) = true →
  ∃ tree', sortChildrenByZIndex parent tree = Ok tree'
    ∧ sortChildrenByZIndex parent tree' = Ok tree'.
Proof.
  intros Hatt Htag.
  assert (forallb (hasZIndexTag tree) (childrenOf tree parent) = true) as Htag'.
  { apply forallb_forall. intros c Hc%list_elem_of_In.
    by destruct (forallb_hasIntegerZIndexTag _ _ Htag c Hc). }
  destruct (sort_compareZIndex_returns _ _ Htag') as [sorted Hsort].
  destruct (sortChildrenByZIndex_sorted _ _ _ Hatt Hsort)
    as (tree' & Hok & Hcs & Hothers & Hsame).
  exists tree'. split; [done|].
  apply sortChildrenByZIndex_fixed.
  - apply childrenAttached_reordered with tree; [done| |done].
    rewrite Hcs. by eapply sort_Permutation.
  - rewrite Hcs. rewrite (sort_ext (compareZIndex tree)).
    + apply sort_Sorted_fixed, StronglySorted_Sorted.
      by apply sort_compareZIndex_StronglySorted with (childrenOf tree parent).
    + intros x y. by apply compareZIndex_same.
Qed.

Lemma sortChildrenByZIndex_idempotent_witness :
  ∃ tree', sortChildrenByZIndex 2 sampleNegative = Ok tree'
    ∧ sortChildrenByZIndex 2 tree' = Ok tree'.
Proof.
  apply (sortChildrenByZIndex_idempotent sampleNegative 2); vm_compute; reflexivity.
Defined.

Lemma Sorted_all_related {A : Type} (R : relation A) (l : list A) :
  (∀ x y, x ∈ l → y ∈ l → R x y) → Sorted R l.
Proof.
  induction l as [|x xs IH]; intros Hall; constructor.
  - apply IH. intros y z Hy Hz. apply Hall; by right.
  - destruct xs as [|y ys]; constructor. apply Hall; [by left|by right; left].
Qed.

(** X17: when the tags of the children all read as the same number, or
    none of them reads as a number, [sortChildrenByZIndex] leaves the tree as
    it is. *)
Theorem sortChildrenByZIndex_equal_keys (tree : Dom) (parent : NodeId) (k : JS.Number) :
  childrenAttached tree parent = true →
  forallb (hasZIndexTag tree) (childrenOf tree parent) = true →
  forallb (fun c => bool_decide (zIndexKey tree c = k)) (childrenOf tree parent) = true →
  sortChildrenByZIndex parent tree = Ok tree.
Proof.
  intros Hatt Htag Hkey. rewrite forallb_forall in Htag, Hkey.
  apply sortChildrenByZIndex_fixed; [done|].
  apply sort_Sorted_fixed, Sorted_all_related.
  intros x y Hx%list_elem_of_In Hy%list_elem_of_In.
  rewrite compareZIndex_tagged by auto.
  rewrite (bool_decide_eq_true_1 _ (Hkey x Hx)), (bool_decide_eq_true_1 _ (Hkey y Hy)).
  eauto using gtZero_sub_diag.
Qed.

Lemma sortChildrenByZIndex_equal_keys_witness :
  sortChildrenByZIndex 7 sampleWords = Ok sampleWords.
Proof.
  apply (sortChildrenByZIndex_equal_keys sampleWords 7 JS.NaN); vm_compute; reflexivity.
Defined.

(** X18: a parent with one child or none is left as it is, and its child
    is not asked for a [data-z-index] attribute. *)
Theorem sortChildrenByZIndex_at_most_one (tree : Dom) (parent : NodeId) :
  childrenAttached tree parent = true →
  length (childrenOf tree parent) ≤ 1 →
  sortChildrenByZIndex parent tree = Ok tree.
Proof.
  intros Hatt Hlen. apply sortChildrenByZIndex_fixed; [done|].
  destruct (childrenOf tree parent) as [|c [|c' cs]]; [done|done|simpl in Hlen; lia].
Qed.

Lemma sortChildrenByZIndex_at_most_one_witness :
  sortChildrenByZIndex 7 sampleLone = Ok sampleLone.
Proof.
  apply (sortChildrenByZIndex_at_most_one sampleLone 7).
  - vm_compute. reflexivity.
  - vm_compute. lia.
Defined.

(** ** Further properties of [sortStackingLayerChildren] *)

(** With integer tags, what the sort returns is in ascending order. *)
Lemma sort_compareZIndex_ascending (tree : Dom) (cs sorted : list NodeId) :
  forallb (hasIntegerZIndexTag tree) cs = true →
  sort (compareZIndex tree) cs = Ok sorted →
  StronglySorted
    (fun a b => JS.gtZero (JS.sub (zIndexKey tree a) (zIndexKey tree b)) = false) sorted.
Proof.
  intros Htag Hsort.
  apply (sort_StronglySorted (compareZIndex tree) _
           (fun c => JS.isNaN (zIndexKey tree c) = false)) with cs; [| | | |done].
  - intros x y v (_ & _ & ->)%compareZIndex_Ok. apply gtZero_sub_asym.
  - by intros x y v (_ & _ & ->)%compareZIndex_Ok.
  - intros x y z. apply gtZero_sub_trans.
  - apply Forall_forall. intros c Hc.
    by destruct (forallb_hasIntegerZIndexTag _ _ Htag c Hc).
Qed.

Lemma same_zIndexKey (tree tree' : Dom) (c : NodeId) :
  (∀ c, setChildren [] <$> tree' !! c = setChildren [] <$> tree !! c) →
  zIndexKey tree' c = zIndexKey tree c.
Proof. intros Hsame. unfold zIndexKey. by rewrite (same_datasetOf tree tree'). Qed.

(** X19: when the entries of the two sorted layers have integer tags,
    [sortStackingLayerChildren] returns; in each of the two layers the
    entries are a permutation of what they were, in ascending order of their
    tags; and every element other than the two layer containers, the five
    other layers among them, is as it was. *)
Theorem sortStackingLayerChildren_sorts_both (tree : Dom) (layers : StackingLayers) :
  let negative := layer_childStackingContextsWithNegativeStackLevels layers in
  let positive := layer_childStackingContextsWithPositiveStackLevels layers in
  let ascending a b :=
    JS.gtZero (JS.sub (zIndexKey tree a) (zIndexKey tree b)) = false in
  negative ≠ positive →
  childrenAttached tree negative = true →
  childrenAttached tree positive = true →
  forallb (hasIntegerZIndexTag tree) (childrenOf tree negative) = true →
  forallb (hasIntegerZIndexTag tree) (childrenOf tree positive) = true →
  ∃ tree', sortStackingLayerChildren layers tree = Ok tree'
    ∧ childrenOf tree' negative ≡ₚ childrenOf tree negative
    ∧ StronglySorted ascending (childrenOf tree' negative)
    ∧ childrenOf tree' positive ≡ₚ childrenOf tree positive
    ∧ StronglySorted ascending (childrenOf tree' positive)
    ∧ ∀ other, other ≠ negative → other ≠ positive → tree' !! other = tree !! other.
Proof.
  intros negative positive ascending Hne Hatt2 Hatt7 Htag2 Htag7.
  assert (∀ layer, forallb (hasIntegerZIndexTag tree) (childrenOf tree layer) = true →
            forallb (hasZIndexTag tree) (childrenOf tree layer) = true) as Htagged.
  { intros layer Htag. apply forallb_forall. intros c Hc%list_elem_of_In.
    by destruct (forallb_hasIntegerZIndexTag _ _ Htag c Hc). }
  destruct (sort_compareZIndex_returns _ _ (Htagged _ Htag2)) as [sorted2 Hsort2].
  destruct (sort_compareZIndex_returns _ _ (Htagged _ Htag7)) as [sorted7 Hsort7].
  destruct (sortChildrenByZIndex_sorted _ _ _ Hatt2 Hsort2)
    as (tree1 & Hok1 & Hcs1 & Hothers1 & Hsame1).
  assert (childrenOf tree1 positive = childrenOf tree positive) as Hcs7.
  { unfold childrenOf. by rewrite Hothers1. }
  assert (childrenAttached tree1 positive = true) as Hatt7'.
  { by rewrite (same_childrenAttached tree tree1). }
  assert (sort (compareZIndex tree1) (childrenOf tree1 positive) = Ok sorted7) as Hsort7'.
  { rewrite Hcs7, <- Hsort7. apply sort_ext. intros x y. by apply compareZIndex_same. }
  destruct (sortChildrenByZIndex_sorted _ _ _ Hatt7' Hsort7')
    as (tree2 & Hok2 & Hcs2 & Hothers2 & _).
  exists tree2. unfold sortStackingLayerChildren. fold negative positive.
  rewrite Hok1. simpl. split; [done|].
  assert (childrenOf tree2 negative = sorted2) as ->.
  { unfold childrenOf in *. by rewrite Hothers2. }
  rewrite Hcs2. repeat split.
  - by eapply sort_Permutation.
  - by apply sort_compareZIndex_ascending with (childrenOf tree negative).
  - by eapply sort_Permutation.
  - by apply sort_compareZIndex_ascending with (childrenOf tree positive).
  - intros other Hn Hp. by rewrite Hothers2, Hothers1.
Qed.

Lemma sortStackingLayerChildren_sorts_both_witness :
  ∃ tree', sortStackingLayerChildren sampleLayers sampleBoth = Ok tree'
    ∧ childrenOf tree' 2 ≡ₚ childrenOf sampleBoth 2
    ∧ StronglySorted
        (fun a b =>
           JS.gtZero (JS.sub (zIndexKey sampleBoth a) (zIndexKey sampleBoth b)) = false)
        (childrenOf tree' 2)
    ∧ childrenOf tree' 7 ≡ₚ childrenOf sampleBoth 7
    ∧ StronglySorted
        (fun a b =>
           JS.gtZero (JS.sub (zIndexKey sampleBoth a) (zIndexKey sampleBoth b)) = false)
        (childrenOf tree' 7)
    ∧ ∀ other, other ≠ 2 → other ≠ 7 → tree' !! other = sampleBoth !! other.
Proof.
  apply (sortStackingLayerChildren_sorts_both sampleBoth sampleLayers);
    vm_compute; first [reflexivity | discriminate].
Defined.

(** A parent with two children or more, one of which has no tag, makes
    [sortChildrenByZIndex] throw. *)
Lemma sortChildrenByZIndex_untagged (tree : Dom) (parent c : NodeId) :
  2 ≤ length (childrenOf tree parent) →
  c ∈ childrenOf tree parent →
  hasZIndexTag tree c = false →
  sortChildrenByZIndex parent tree
    = Throw (JsError "Expected node to have data-z-index attribute").
Proof.
  intros Hlen Hc Htag. unfold sortChildrenByZIndex.
  destruct (sort (compareZIndex tree) (childrenOf tree parent)) as [sorted|e] eqn:Hsort.
  - destruct (sort_Ok_compared _ _ _ c Hsort Hlen Hc) as (y & v & [H|H]);
      apply compareZIndex_Ok in H as (Ha & Hb & _); congruence.
  - simpl. apply sort_Throw in Hsort as (x & y & ->%compareZIndex_Throw). done.
Qed.

(** The only error of [sortChildrenByZIndex]. *)
Lemma sortChildrenByZIndex_Throw (tree : Dom) (parent : NodeId) (e : Error) :
  sortChildrenByZIndex parent tree = Throw e →
  e = JsError "Expected node to have data-z-index attribute".
Proof.
  unfold sortChildrenByZIndex.
  destruct (sort (compareZIndex tree) (childrenOf tree parent)) as [sorted|e'] eqn:Hsort;
    simpl; [discriminate|].
  intros [= <-]. by apply sort_Throw in Hsort as (x & y & ->%compareZIndex_Throw).
Qed.

(** X20: an entry without tag among two entries or more makes
    [sortStackingLayerChildren] throw, in the layer of negative stack levels
    and in that of positive stack levels alike: sorting the first layer does
    not hide what is missing in the second. *)
Theorem sortStackingLayerChildren_missing_tag_throws
    (tree : Dom) (layers : StackingLayers) (layer c : NodeId) :
  let negative := layer_childStackingContextsWithNegativeStackLevels layers in
  let positive := layer_childStackingContextsWithPositiveStackLevels layers in
  layer = negative
  ∨ (layer = positive ∧ negative ≠ positive ∧ childrenAttached tree negative = true) →
  2 ≤ length (childrenOf tree layer) →
  c ∈ childrenOf tree layer →
  hasZIndexTag tree c = false →
  sortStackingLayerChildren layers tree
    = Throw (JsError "Expected node to have data-z-index attribute").
Proof.
  intros negative positive Hlayer Hlen Hc Htag.
  unfold sortStackingLayerChildren. fold negative positive.
  destruct Hlayer as [->|(-> & Hne & Hatt)].
  - by rewrite (sortChildrenByZIndex_untagged tree negative c).
  - destruct (sortChildrenByZIndex negative tree) as [tree1|e] eqn:Hok; simpl.
    + destruct (sortChildrenByZIndex_Ok _ _ _ Hatt Hok)
        as (sorted & _ & _ & Hothers & Hsame).
      assert (childrenOf tree1 positive = childrenOf tree positive) as Hcs.
      { unfold childrenOf. by rewrite Hothers. }
      apply (sortChildrenByZIndex_untagged tree1 positive c); rewrite ?Hcs; [done|done|].
      by rewrite (same_hasZIndexTag tree tree1).
    + by rewrite (sortChildrenByZIndex_Throw _ _ _ Hok).
Qed.

Lemma sortStackingLayerChildren_missing_tag_throws_witness :
  sortStackingLayerChildren sampleLayers sampleMissing
    = Throw (JsError "Expected node to have data-z-index attribute").
Proof.
  apply (sortStackingLayerChildren_missing_tag_throws sampleMissing sampleLayers 7 8).
  - right. repeat split; vm_compute; first [reflexivity | discriminate].
  - vm_compute. lia.
  - vm_compute. apply list_elem_of_here.
  - vm_compute. reflexivity.
Defined.

(** ** The arrangement the sort ends in *)

Lemma gtZero_sub_antisym (a b : JS.Number) :
  JS.isNaN a = false → JS.isNaN b = false →
  JS.gtZero (JS.sub a b) = false → JS.gtZero (JS.sub b a) = false → a = b.
Proof.
  rewrite !gtZero_sub.
  destruct a as [|s|x], b as [|t|y]; simpl; try done;
    repeat match goal with b : bool |- _ => destruct b end; simpl; try done.
  intros _ _ H1%Z.ltb_ge H2%Z.ltb_ge. f_equal. lia.
Qed.

(** Two arrangements in ascending order that keep, for each number, the
    same elements in the same order are one arrangement. *)
Lemma stable_ascending_unique (key : NodeId → JS.Number) (l1 l2 : list NodeId) :
  Forall (fun c => JS.isNaN (key c) = false) l1 →
  StronglySorted (fun a b => JS.gtZero (JS.sub (key a) (key b)) = false) l1 →
  StronglySorted (fun a b => JS.gtZero (JS.sub (key a) (key b)) = false) l2 →
  (∀ k, filter (fun c => key c = k) l1 = filter (fun c => key c = k) l2) →
  l1 = l2.
Proof.
  revert l2. induction l1 as [|x l1 IH]; intros l2 Hvalid Hs1 Hs2 Hf.
  - destruct l2 as [|y l2]; [done|].
    specialize (Hf (key y)). by rewrite filter_cons_True in Hf.
  - destruct l2 as [|y l2].
    { specialize (Hf (key x)). by rewrite filter_cons_True in Hf. }
    apply Forall_cons in Hvalid as [Hx Hvalid].
    apply StronglySorted_cons in Hs1 as [Hx1 Hs1].
    apply StronglySorted_cons in Hs2 as [Hy2 Hs2].
    rewrite Forall_forall in Hx1, Hy2, Hvalid.
    assert (y ∈ x :: l1) as Hy.
    { assert (y ∈ filter (fun c => key c = key y) (y :: l2)) as Hin
        by (rewrite filter_cons_True by done; left).
      rewrite <- Hf in Hin. by apply list_elem_of_filter in Hin as [_ ?]. }
    assert (x ∈ y :: l2) as Hx'.
    { assert (x ∈ filter (fun c => key c = key x) (x :: l1)) as Hin
        by (rewrite filter_cons_True by done; left).
      rewrite Hf in Hin. by apply list_elem_of_filter in Hin as [_ ?]. }
    assert (key y = key x) as Hkey.
    { apply elem_of_cons in Hy as [->|Hy]; [done|].
      apply elem_of_cons in Hx' as [->|Hx']; [done|].
      symmetry. apply gtZero_sub_antisym; auto. }
    assert (x = y) as <-.
    { specialize (Hf (key x)). rewrite !filter_cons_True in Hf by done. congruence. }
    f_equal. apply IH; [by apply Forall_forall|done|done|].
    intros k. specialize (Hf k). rewrite !filter_cons in Hf.
    destruct (decide (key x = k)); congruence.
Qed.

(** X21: with integer tags, the children end in the one arrangement that
    is in ascending order of the tags and keeps, for each number, the
    children tagged with it in the order they had: whatever stable sort the
    engine runs gives this result. *)
Theorem sortChildrenByZIndex_arrangement
    (tree : Dom) (parent : NodeId) (arrangement : list NodeId) :
  childrenAttached tree parent = true →
  forallb (hasIntegerZIndexTag tree) (childrenOf tree parent) = true →
  StronglySorted
    (fun a b => JS.gtZero (JS.sub (zIndexKey tree a) (zIndexKey tree b)) = false)
    arrangement →
  (∀ k, filter (fun c => zIndexKey tree c = k) arrangement
        = filter (fun c => zIndexKey tree c = k) (childrenOf tree parent)) →
  ∃ tree', sortChildrenByZIndex parent tree = Ok tree'
    ∧ childrenOf tree' parent = arrangement.
Proof.
  intros Hatt Htag Hsorted Hstable.
  assert (forallb (hasZIndexTag tree) (childrenOf tree parent) = true) as Htag'.
  { apply forallb_forall. intros c Hc%list_elem_of_In.
    by destruct (forallb_hasIntegerZIndexTag _ _ Htag c Hc). }
  destruct (sort_compareZIndex_returns _ _ Htag') as [sorted Hsort].
  destruct (sortChildrenByZIndex_sorted _ _ _ Hatt Hsort) as (tree' & Hok & Hcs & _).
  exists tree'. split; [done|]. rewrite Hcs.
  apply (stable_ascending_unique (zIndexKey tree)); [| |done|].
  - apply Forall_forall. intros c Hc.
    rewrite (sort_Permutation _ _ _ Hsort) in Hc.
    by destruct (forallb_hasIntegerZIndexTag _ _ Htag c Hc).
  - by apply sort_compareZIndex_ascending with (childrenOf tree parent).
  - intros k. rewrite Hstable.
    apply (sort_filter (compareZIndex tree)); [|done].
    intros x y v Hx Hy (_ & _ & ->)%compareZIndex_Ok.
    rewrite Hx, Hy. apply gtZero_sub_diag.
Qed.

Lemma sortChildrenByZIndex_arrangement_witness :
  ∃ tree', sortChildrenByZIndex 2 sampleNegative = Ok tree'
    ∧ childrenOf tree' 2 = [8; 10; 9].
Proof.
  apply (sortChildrenByZIndex_arrangement sampleNegative 2 [8; 10; 9]).
  - vm_compute. reflexivity.
  - vm_compute. reflexivity.
  - repeat constructor; vm_compute; reflexivity.
  - intros k.
    assert (childrenOf sampleNegative 2 = [8; 9; 10]) as -> by (vm_compute; reflexivity).
    assert (zIndexKey sampleNegative 8 = JS.Finite (-3)) as H8 by (vm_compute; reflexivity).
    assert (zIndexKey sampleNegative 9 = JS.Finite (-1)) as H9 by (vm_compute; reflexivity).
    assert (zIndexKey sampleNegative 10 = JS.Finite (-2)) as H10
      by (vm_compute; reflexivity).
    rewrite !filter_cons, !filter_nil, H8, H9, H10.
    repeat case_decide; subst; done.
Defined.
